(** * Mordor-Elastic: the record normaliser and the shipping loop

    A shallow embedding of [scripts/data-shippers/Mordor-Elastic.py].
    The script reads gzip-compressed tar archives whose file members are
    newline-delimited JSON, rewrites every record into the winlogbeat 7
    field layout and ships it to Elasticsearch (bulk helper) or to
    Logstash (one HTTP POST per record).

    Python dictionaries are finite maps ([gmap string json]); dictionary
    equality in Python ignores insertion order, and so does [gmap].
    Exceptions are values of [exn], carried by the [result] monad. *)

From Stdlib Require Import ZArith.
From Stdlib.Strings Require Import Byte.
From stdpp Require Import gmap strings list fin_maps.

#[local] Set Warnings "-register-all".
#[local] Open Scope string_scope.
#[local] Open Scope Z_scope.

(** ** JSON values, as [json.loads] builds them *)

(** [JFloat] keeps the binary64 value of a Python [float] by its bit
    pattern; the script never looks inside a number. *)
Inductive json : Type :=
  | JNull
  | JBool (b : bool)
  | JInt (z : Z)
  | JFloat (bits : Z)
  | JString (s : string)
  | JArray (l : list json)
  | JObject (d : gmap string json).

Abbreviation dict := (gmap string json).

(** ** Exceptions *)

(** The exceptions the script itself gives rise to, and [Exception] for
    any other one, by the name of its class: what the HTTP client, the
    Elasticsearch transport or the decoder may raise besides. *)
Inductive exn : Type :=
  | KeyError (key : string)
  | TypeError
  | JSONDecodeError
  | UnicodeDecodeError
  | NameError (name : string)
  | Exception (name : string).

Inductive result (A : Type) : Type :=
  | Ok (a : A)
  | Raise (e : exn).
Arguments Ok {A} a.
Arguments Raise {A} e.

#[global] Instance result_ret : MRet result := fun _ a => Ok a.
#[global] Instance result_bind : MBind result := fun _ _ f r =>
  match r with
  | Ok a => f a
  | Raise e => Raise e
  end.
#[global] Instance result_fmap : FMap result := fun _ _ f r =>
  match r with
  | Ok a => Ok (f a)
  | Raise e => Raise e
  end.

(** [try: body except KeyError: pass], where [unchanged] is the state the
    handler resumes with. *)
Definition try_except_KeyError {A} (body : result A) (unchanged : A) : result A :=
  match body with
  | Raise (KeyError _) => Ok unchanged
  | r => r
  end.

(** ** Subscripting *)

Module Py.

(** [k in d] *)
Definition contains (k : string) (d : dict) : bool :=
  bool_decide (is_Some (d !! k)).

(** [d[k]] on a dictionary *)
Definition dict_getitem (d : dict) (k : string) : result json :=
  match d !! k with
  | Some v => Ok v
  | None => Raise (KeyError k)
  end.

(** [del d[k]] *)
Definition dict_delitem (d : dict) (k : string) : result dict :=
  match d !! k with
  | Some _ => Ok (delete k d)
  | None => Raise (KeyError k)
  end.

(** [d.setdefault(k, v)]: the dictionary afterwards *)
Definition dict_setdefault (d : dict) (k : string) (v : json) : dict :=
  match d !! k with
  | Some _ => d
  | None => <[k:=v]> d
  end.

(** [o[k]] with a string subscript, on any value a JSON document holds:
    strings, lists, numbers, booleans and [None] all raise [TypeError]. *)
Definition getitem (o : json) (k : string) : result json :=
  match o with
  | JObject d => dict_getitem d k
  | _ => Raise TypeError
  end.

(** [o[k] = v] with a string subscript *)
Definition setitem (o : json) (k : string) (v : json) : result json :=
  match o with
  | JObject d => Ok (JObject (<[k:=v]> d))
  | _ => Raise TypeError
  end.

(** [source[k1][k2] = v]: the inner object is updated in place, so the
    outer dictionary sees the new inner value under [k1]. *)
Definition setitem2 (source : dict) (k1 k2 : string) (v : json) : result dict :=
  inner ← dict_getitem source k1;
  inner' ← setitem inner k2 v;
  Ok (<[k1:=inner']> source).

(** [source[k1][k2]] *)
Definition getitem2 (source : dict) (k1 k2 : string) : result json :=
  inner ← dict_getitem source k1;
  getitem inner k2.

(** [v == s] for a string literal [s] *)
Definition eq_str (v : json) (s : string) : bool :=
  match v with
  | JString s' => bool_decide (s' = s)
  | _ => false
  end.

End Py.

(** ** The normaliser: lines 90 to 152 of [generate_actions] *)

(** The keys the nxlog branch leaves at top level (line 114). *)
Definition kept_at_top_level : list string :=
  ["winlog"; "log"; "Channel"; "Hostname"; "@timestamp"; "@version"].

(** Lines 111 to 115: the dictionary comprehension. *)
Definition event_data_of (source : dict) : dict :=
  filter (λ kv : string * json, kv.1 ∉ kept_at_top_level) source.

(** Lines 94 to 131: records written by nxlog. *)
Definition move_nxlog (source : dict) : result dict :=
  if Py.contains "EventID" source then
    eid ← Py.dict_getitem source "EventID";
    source ← Py.setitem2 source "winlog" "event_id" eid;
    source ← Py.dict_delitem source "EventID";
    source ← try_except_KeyError (Py.dict_delitem source "type") source;
    source ← try_except_KeyError (Py.dict_delitem source "host") source;
    let event_data := event_data_of source in
    source ← Py.setitem2 source "winlog" "event_data" (JObject event_data);
    let source := source ∖ event_data in
    source ← try_except_KeyError
      (hostname ← Py.dict_getitem source "Hostname";
       source ← Py.setitem2 source "winlog" "computer_name" hostname;
       Py.dict_delitem source "Hostname") source;
    try_except_KeyError
      (channel ← Py.dict_getitem source "Channel";
       source ← Py.setitem2 source "winlog" "channel" channel;
       Py.dict_delitem source "Channel") source
  else Ok source.

(** Lines 134 to 136: Winlogbeat before 7 kept the fields in [event_data]. *)
Definition move_event_data (source : dict) : result dict :=
  if Py.contains "event_data" source then
    v ← Py.dict_getitem source "event_data";
    source ← Py.setitem2 source "winlog" "event_data" v;
    Py.dict_delitem source "event_data"
  else Ok source.

(** Lines 138 to 140: the channel name in [log_name]. *)
Definition move_log_name (source : dict) : result dict :=
  if Py.contains "log_name" source then
    v ← Py.dict_getitem source "log_name";
    source ← Py.setitem2 source "winlog" "channel" v;
    Py.dict_delitem source "log_name"
  else Ok source.

(** Lines 142 to 146: the channel name in small letters. *)
Definition fix_channel (source : dict) : result dict :=
  try_except_KeyError
    (channel ← Py.getitem2 source "winlog" "channel";
     if Py.eq_str channel "security"
     then Py.setitem2 source "winlog" "channel" (JString "Security")
     else Ok source) source.

(** Lines 148 to 150: the event id at top level. *)
Definition move_event_id (source : dict) : result dict :=
  if Py.contains "event_id" source then
    v ← Py.dict_getitem source "event_id";
    source ← Py.setitem2 source "winlog" "event_id" v;
    Py.dict_delitem source "event_id"
  else Ok source.

(** Line 152.  The right-hand side is evaluated first. *)
Definition set_event_code (source : dict) : result dict :=
  eid ← Py.getitem2 source "winlog" "event_id";
  let source := Py.dict_setdefault source "event" (JObject ∅) in
  Py.setitem2 source "event" "code" eid.

(** Line 90: the value stored under [log]. *)
Definition log_of (logfile : string) : json :=
  JObject {[ "file" := JObject {[ "name" := JString logfile ]} ]}.

(** Lines 90 to 140: stamping the file name and the relocation rules. *)
Definition relocate (logfile : string) (source : dict) : result dict :=
  let source := <["log" := log_of logfile]> source in
  let source := Py.dict_setdefault source "winlog" (JObject ∅) in
  source ← move_nxlog source;
  source ← move_event_data source;
  move_log_name source.

(** Lines 90 to 152 on a dictionary. *)
Definition normalize_dict (logfile : string) (source : dict) : result dict :=
  source ← relocate logfile source;
  source ← fix_channel source;
  source ← move_event_id source;
  set_event_code source.

(** Lines 90 to 152 on whatever [json.loads] returned: line 90 already
    raises [TypeError] on a document that is not an object. *)
Definition normalize (logfile : string) (source : json) : result json :=
  match source with
  | JObject d => JObject <$> normalize_dict logfile d
  | _ => Raise TypeError
  end.

(** ** Archives *)

Module tarfile.

(** What the script reads of a [TarInfo]: its name, whether it is a
    regular file, the size in its header, and the bytes [extractfile]
    returns for it. *)
Record TarInfo : Type := {
  name : string;
  isfile : bool;
  size : Z;
  extractfile : list byte
}.

End tarfile.

(** An input path with the members [tarfile.open(path).getmembers()] lists. *)
Record archive : Type := {
  path : string;
  getmembers : list tarfile.TarInfo
}.

(** Iterating a binary file object: every line keeps its newline, the last
    one may lack it. [cur] holds the bytes of the line being read, newest
    first. *)
Fixpoint readlines_from (cur : list byte) (bs : list byte) : list (list byte) :=
  match bs with
  | [] => match cur with [] => [] | _ => [rev cur] end
  | b :: bs' =>
      if Byte.eqb b x0a then rev (b :: cur) :: readlines_from [] bs'
      else readlines_from (b :: cur) bs'
  end.

Definition readlines (bs : list byte) : list (list byte) := readlines_from [] bs.

(** [len(line)] *)
Definition len (line : list byte) : Z := Z.of_nat (length line).

(** Lines 69 to 73. *)
Definition member_sizes (a : archive) : list Z :=
  tarfile.size <$> filter (λ m, tarfile.isfile m = true) (getmembers a).

Definition total_size (paths : list archive) : Z :=
  foldr Z.add 0 (paths ≫= member_sizes).

(** ** The shipping loop: lines 75 to 185 *)

Inductive output : Type := Elasticsearch | Logstash.

Inductive message : Type :=
  | ImportingDataset (path : string)
  | ImportingMember (name : string)
  | Imported (success_count fail_count : Z) (color : string)
  | ImportedTotal (total_success total_failed : Z).

(** How a call of the bulk helper ends by itself: it returns the two
    counts, or it raises an exception of its own after it pulled [pulled]
    actions from the generator. *)
Inductive bulk_outcome : Type :=
  | Counts (success_count fail_count : Z)
  | Raises (e : exn) (pulled : nat).

(** The outside world and the command line: the JSON decoder, the remote
    service with its state, the HTTP client, the bulk helper, [--output]
    and [--index].

    [json_loads] returns the document or the exception [json.loads]
    raises ([JSONDecodeError], [UnicodeDecodeError] on bytes that are not
    UTF-8, ...).  [requests_post] returns the status code of the response,
    or the exception the client raises.  [bulk w acts e] is the helper,
    called with [stats_only] set and [raise_on_error] unset, on a generator
    that yields [acts] and then ends ([e = None]) or raises [e]: it answers
    [Counts] when it reads the generator to its end, and [Raises] when it
    raises by itself before that. *)
Class External : Type := {
  World : Type;
  json_loads : list byte → result json;
  requests_post : World → json → World * result Z;
  bulk : World → list json → option exn → World * bulk_outcome;
  args_output : output;
  index : string
}.

Section Shipping.

Context `{External}.

(** The module-level variables the loop assigns.  [color] is unbound
    until its first assignment; [progress_value] is [progress.value]. *)
Record state : Type := {
  world : World;
  progress_value : Z;
  total_success : Z;
  total_failed : Z;
  success_count : Z;
  fail_count : Z;
  color : option string;
  stdout : list message
}.

Inductive outcome : Type :=
  | Done (st : state)
  | Raised (e : exn) (st : state).

Definition and_then (o : outcome) (k : state → outcome) : outcome :=
  match o with
  | Done st => k st
  | Raised e st => Raised e st
  end.

Definition state_of (o : outcome) : state :=
  match o with
  | Done st => st
  | Raised _ st => st
  end.

Definition print (msg : message) (st : state) : state :=
  {| world := world st; progress_value := progress_value st;
     total_success := total_success st; total_failed := total_failed st;
     success_count := success_count st; fail_count := fail_count st;
     color := color st; stdout := stdout st ++ [msg] |}.

Definition set_world (w : World) (st : state) : state :=
  {| world := w; progress_value := progress_value st;
     total_success := total_success st; total_failed := total_failed st;
     success_count := success_count st; fail_count := fail_count st;
     color := color st; stdout := stdout st |}.

(** [progress.update(v)] *)
Definition progress_update (v : Z) (st : state) : state :=
  {| world := world st; progress_value := v;
     total_success := total_success st; total_failed := total_failed st;
     success_count := success_count st; fail_count := fail_count st;
     color := color st; stdout := stdout st |}.

(** Lines 171 and 172. *)
Definition reset_counts (st : state) : state :=
  {| world := world st; progress_value := progress_value st;
     total_success := total_success st; total_failed := total_failed st;
     success_count := 0; fail_count := 0;
     color := color st; stdout := stdout st |}.

(** Lines 176 to 178. *)
Definition count_success (st : state) : state :=
  {| world := world st; progress_value := progress_value st;
     total_success := total_success st + 1; total_failed := total_failed st;
     success_count := success_count st + 1; fail_count := fail_count st;
     color := Some "green"; stdout := stdout st |}.

(** Lines 180 to 182. *)
Definition count_failure (st : state) : state :=
  {| world := world st; progress_value := progress_value st;
     total_success := total_success st; total_failed := total_failed st + 1;
     success_count := success_count st; fail_count := fail_count st + 1;
     color := Some "red"; stdout := stdout st |}.

(** Lines 163 to 169, after [bulk] returned. *)
Definition count_bulk (s f : Z) (st : state) : state :=
  {| world := world st; progress_value := progress_value st;
     total_success := total_success st + s; total_failed := total_failed st + f;
     success_count := s; fail_count := f;
     color := Some (if f >? 0 then "red" else "green"); stdout := stdout st |}.

(** Lines 155 to 161: what the generator yields for a normalised record. *)
Definition action_of (source : json) : json :=
  match args_output with
  | Elasticsearch => JObject {[ "_index" := JString index; "_source" := source ]}
  | Logstash => source
  end.

(** One turn of the generator's loop, lines 89 to 161: the value yielded
    and the progress it reports. *)
Definition generate_action (logfile : string) (line : list byte) (progress : Z)
  : result (json * Z) :=
  source ← json_loads line;
  source ← normalize logfile source;
  Ok (action_of source, progress + len line).

(** The generator run to its end, as [bulk] runs it: the values yielded,
    the progress reported, and the exception that ended it, if any. *)
Fixpoint generate_actions (logfile : string) (f : list (list byte)) (progress : Z)
  : list json * Z * option exn :=
  match f with
  | [] => ([], progress, None)
  | line :: f' =>
      match generate_action logfile line progress with
      | Raise e => ([], progress, Some e)
      | Ok (a, progress') =>
          let '(acts, p, e) := generate_actions logfile f' progress' in
          (a :: acts, p, e)
      end
  end.

(** Lines 163 to 169.  The helper pulls the generator: where it raises
    by itself, the generator has run for the actions pulled (all of them
    where [pulled] is larger); where the generator raises, its exception
    leaves the helper; no exception is handled here. *)
Definition ship_bulk (logfile : string) (f : list (list byte)) (st : state) : outcome :=
  let '(acts, p, e) := generate_actions logfile f (progress_value st) in
  match bulk (world st) acts e with
  | (w, Raises x pulled) =>
      let p := (generate_actions logfile (take pulled f) (progress_value st)).1.2 in
      Raised x (set_world w (progress_update p st))
  | (w, Counts s fl) =>
      match e with
      | Some e => Raised e (set_world w (progress_update p st))
      | None => Done (count_bulk s fl (set_world w (progress_update p st)))
      end
  end.

(** Lines 174 to 182: one event.  An exception of [requests.post] is not
    handled. *)
Definition post_event (event : json) (st : state) : outcome :=
  let '(w, r) := requests_post (world st) event in
  let st := set_world w st in
  match r with
  | Raise e => Raised e st
  | Ok status_code =>
      Done (if status_code =? 200 then count_success st else count_failure st)
  end.

(** Lines 173 to 182: the generator is pulled one event at a time. *)
Fixpoint post_events (logfile : string) (f : list (list byte)) (st : state) : outcome :=
  match f with
  | [] => Done st
  | line :: f' =>
      match generate_action logfile line (progress_value st) with
      | Raise e => Raised e st
      | Ok (event, p) =>
          and_then (post_event event (progress_update p st)) (post_events logfile f')
      end
  end.

(** Lines 170 to 182. *)
Definition ship_logstash (logfile : string) (f : list (list byte)) (st : state) : outcome :=
  post_events logfile f (reset_counts st).

(** Line 183. *)
Definition print_summary (st : state) : outcome :=
  match color st with
  | None => Raised (NameError "color") st
  | Some c => Done (print (Imported (success_count st) (fail_count st) c) st)
  end.

(** Lines 83 to 183: one member. *)
Definition import_member (path : string) (m : tarfile.TarInfo) (st : state) : outcome :=
  if tarfile.isfile m then
    let st := print (ImportingMember (tarfile.name m)) st in
    let logfile := path +:+ "/" +:+ tarfile.name m in
    let mf := readlines (tarfile.extractfile m) in
    and_then
      match args_output with
      | Elasticsearch => ship_bulk logfile mf st
      | Logstash => ship_logstash logfile mf st
      end
      print_summary
  else Done st.

(** Lines 82 to 183. *)
Fixpoint import_members (path : string) (ms : list tarfile.TarInfo) (st : state) : outcome :=
  match ms with
  | [] => Done st
  | m :: ms' => and_then (import_member path m st) (import_members path ms')
  end.

(** Lines 80 to 184. *)
Definition import_archive (a : archive) (st : state) : outcome :=
  import_members (path a) (getmembers a) (print (ImportingDataset (path a)) st).

(** Lines 79 to 184. *)
Fixpoint import_archives (paths : list archive) (st : state) : outcome :=
  match paths with
  | [] => Done st
  | a :: paths' => and_then (import_archive a st) (import_archives paths')
  end.

(** Lines 75 to 78: the state the loop starts in. *)
Definition initial (w : World) : state :=
  {| world := w; progress_value := 0; total_success := 0; total_failed := 0;
     success_count := 0; fail_count := 0; color := None; stdout := [] |}.

(** Lines 75 to 185. *)
Definition run (paths : list archive) (w : World) : outcome :=
  and_then (import_archives paths (initial w))
    (λ st, Done (print (ImportedTotal (total_success st) (total_failed st)) st)).

End Shipping.

(** ** Reading fields of a value *)

(** [v[k]] where it exists. *)
Definition field (k : string) (v : json) : option json :=
  match v with
  | JObject d => d !! k
  | _ => None
  end.

(** [v[k1][k2]...] where it exists. *)
Fixpoint at_path (ks : list string) (v : json) : option json :=
  match ks with
  | [] => Some v
  | k :: ks' =>
      match field k v with
      | Some v' => at_path ks' v'
      | None => None
      end
  end.

(** [source[k1][k2]] where it exists. *)
Definition sub (k1 k2 : string) (source : dict) : option json :=
  source !! k1 ≫= field k2.

(** The three relocations of lines 134 to 150 have one shape. *)
Definition move_to_winlog (src dst : string) (source : dict) : result dict :=
  if Py.contains src source then
    v ← Py.dict_getitem source src;
    source ← Py.setitem2 source "winlog" dst v;
    Py.dict_delitem source src
  else Ok source.

(** A record in the target layout: the file name is stamped, no legacy
    key is left at top level, [winlog] holds an event id that [event.code]
    repeats, and the channel is not the small-letter [security]. *)
Definition canonical (logfile : string) (out : dict) : Prop :=
  out !! "log" = Some (log_of logfile) ∧
  out !! "EventID" = None ∧
  out !! "event_data" = None ∧
  out !! "log_name" = None ∧
  out !! "event_id" = None ∧
  ∃ w e eid,
    out !! "winlog" = Some (JObject w) ∧
    w !! "event_id" = Some eid ∧
    w !! "channel" ≠ Some (JString "security") ∧
    out !! "event" = Some (JObject e) ∧
    e !! "code" = Some eid.

(** ** Sample records *)

(** An nxlog record. *)
Definition nxlog_sample : dict :=
  {[ "EventID" := JInt 7; "Foo" := JString "bar"; "Hostname" := JString "H1";
     "Channel" := JString "Security"; "@timestamp" := JString "t" ]}.

(** The same record in the target layout. *)
Definition nxlog_sample_normalized (logfile : string) : dict :=
  {[ "winlog" := JObject {[ "event_id" := JInt 7;
                            "event_data" := JObject {[ "Foo" := JString "bar" ]};
                            "computer_name" := JString "H1";
                            "channel" := JString "Security" ]};
     "event" := JObject {[ "code" := JInt 7 ]};
     "@timestamp" := JString "t";
     "log" := JObject {[ "file" := JObject {[ "name" := JString logfile ]} ]} ]}.

(** A record with the event id in both legacy places. *)
Definition both_ids_sample : dict :=
  {[ "EventID" := JInt 42; "event_id" := JInt 99 ]}.

(** A record of an old Winlogbeat, with the channel in small letters. *)
Definition winlogbeat6_sample : dict :=
  {[ "event_id" := JInt 4624; "log_name" := JString "security";
     "event_data" := JObject {[ "TargetUserName" := JString "alice" ]};
     "log" := JString "stale" ]}.

(** A record with no event id anywhere. *)
Definition no_id_sample : dict :=
  {[ "message" := JString "hello"; "winlog" := JObject {[ "channel" := JString "System" ]} ]}.

(** The record [winlogbeat6_sample] after lines 90 to 140. *)
Definition winlogbeat6_relocated (logfile : string) : dict :=
  {[ "event_id" := JInt 4624;
     "winlog" := JObject {[ "channel" := JString "security";
                            "event_data" := JObject {[ "TargetUserName" := JString "alice" ]} ]};
     "log" := log_of logfile ]}.

(** ** A sample run *)

(** The bytes of a line holding [{"EventID": 1}] and of a line that is
    not JSON ([oops]), each with its newline. *)
Definition good_line : list byte :=
  [x7b; x22; x45; x76; x65; x6e; x74; x49; x44; x22; x3a; x20; x31; x7d; x0a].

Definition bad_line : list byte := [x6f; x6f; x70; x73; x0a].

(** A decoder that knows these lines only: a line that opens a brace
    decodes to [{"EventID": 1}], any other line is malformed. *)
Definition sample_loads (line : list byte) : result json :=
  match line with
  | x7b :: _ => Ok (JObject {[ "EventID" := JInt 1 ]})
  | _ => Raise JSONDecodeError
  end.

(** A service that records what it receives.  It answers 200 to a post
    unless the event has no [winlog.computer_name], which it rejects
    with 400; in a bulk request it accepts every action. *)
Definition sample_post (w : list json) (event : json) : list json * result Z :=
  (w ++ [event],
   match at_path ["winlog"; "computer_name"] event with
   | Some _ => Ok 200
   | None => Ok 400
   end)%list.

Definition sample_bulk (w : list json) (acts : list json) (e : option exn)
  : list json * bulk_outcome :=
  ((w ++ acts)%list, Counts (Z.of_nat (length acts)) 0).



(** A member that holds a malformed line, and one that holds a good one. *)
Definition broken_member : tarfile.TarInfo :=
  {| tarfile.name := "m1.json"; tarfile.isfile := true;
     tarfile.size := 5; tarfile.extractfile := bad_line |}.

Definition good_member : tarfile.TarInfo :=
  {| tarfile.name := "m2.json"; tarfile.isfile := true;
     tarfile.size := 15; tarfile.extractfile := good_line |}.


(** An archive of the two, the broken member first. *)
Definition broken_then_good : archive :=
  {| path := "a.tar.gz"; getmembers := [broken_member; good_member] |}.

(** A member of two good lines. *)
Definition two_lines : tarfile.TarInfo :=
  {| tarfile.name := "m.json"; tarfile.isfile := true;
     tarfile.size := 30; tarfile.extractfile := (good_line ++ good_line)%list |}.

(** The sample world, shipping to either sink. *)
Definition sample (o : output) : External :=
  {| World := list json; json_loads := sample_loads; requests_post := sample_post;
     bulk := sample_bulk; args_output := o; index := "winlogbeat-mordor" |}.


Definition sample_initial (o : output) : @state (sample o) := @initial (sample o) [].

Definition sample_run (o : output) (paths : list archive) : @outcome (sample o) :=
  @run (sample o) paths [].

Definition sample_import (o : output) (path : string) (m : tarfile.TarInfo)
    (st : @state (sample o)) : @outcome (sample o) :=
  @import_member (sample o) path m st.


(** An nxlog record that already carries a [log]. *)
Definition nxlog_with_log_sample : dict := <["log" := JString "stale"]> nxlog_sample.

(** The bytes a list of lines holds. *)
Definition bytes_consumed (lines : list (list byte)) : Z :=
  foldr Z.add 0 (len <$> lines).

(** A line the generator gets through: it decodes and normalises. *)
Definition line_ok (json_loads : list byte → result json) (logfile : string)
    (line : list byte) : Prop :=
  ∃ source out, json_loads line = Ok source ∧ normalize logfile source = Ok out.

(** ** Vocabulary for the statements *)

(** [a] where it is present, else [b]. *)
Definition first_of {A} (a b : option A) : option A :=
  match a with
  | Some _ => a
  | None => b
  end.

(** What lines 142 to 146 make of a channel value. *)
Definition fixed_case (c : option json) : option json :=
  match c with
  | Some v => if Py.eq_str v "security" then Some (JString "Security") else Some v
  | None => None
  end.

(** The key [k] is absent from [d] or holds a dictionary. *)
Definition mapping_or_absent (k : string) (d : dict) : Prop :=
  d !! k = None ∨ ∃ w, d !! k = Some (JObject w).

(** The dictionary under [k], empty where the key is absent. *)
Definition mapping_at (k : string) (d : dict) : dict :=
  match d !! k with
  | Some (JObject w) => w
  | _ => ∅
  end.

(** The event id a record without [EventID] ends up with: the top-level
    [event_id], else the one inside [winlog]. *)
Definition plain_event_id (d : dict) : option json :=
  first_of (d !! "event_id") (mapping_at "winlog" d !! "event_id").

(** The header size of every file member is the length of its data. *)
Definition sizes_consistent (paths : list archive) : Prop :=
  Forall (λ a, Forall (λ m, tarfile.isfile m = true →
                            tarfile.size m = Z.of_nat (length (tarfile.extractfile m)))
                      (getmembers a)) paths.

(** The lines of all file members, in the order the loop reads them. *)
Definition lines_of (paths : list archive) : list (list byte) :=
  paths ≫= λ a, filter (λ m, tarfile.isfile m = true) (getmembers a)
        ≫= λ m, readlines (tarfile.extractfile m).

(** An archive without its members that are not files. *)
Definition only_files (a : archive) : archive :=
  {| path := path a;
     getmembers := filter (λ m, tarfile.isfile m = true) (getmembers a) |}.

(** ** TLS verification for Logstash: lines 51 to 58 *)

(** Truth value of [args.cacerts]: [None] and the empty string are false. *)
Definition truthy (cacerts : option string) : bool :=
  match cacerts with
  | Some p => negb (String.eqb p "")
  | None => false
  end.

(** The value passed as [verify=] to [requests.post]: [args.cacerts]
    itself, or a boolean. *)
Definition logstash_verify (args_verify_certs : bool) (args_cacerts : option string)
  : option string + bool :=
  if args_verify_certs && truthy args_cacerts then inl args_cacerts
  else if negb args_verify_certs then inr false
  else inr true.


(** An archive whose members all import to the end. *)
Definition good_archive : archive :=
  {| path := "b.tar.gz"; getmembers := [good_member; two_lines] |}.

(** An empty file member. *)
Definition empty_member : tarfile.TarInfo :=
  {| tarfile.name := "empty.json"; tarfile.isfile := true;
     tarfile.size := 0; tarfile.extractfile := [] |}.

(** A directory entry. *)
Definition directory_member : tarfile.TarInfo :=
  {| tarfile.name := "logs"; tarfile.isfile := false;
     tarfile.size := 0; tarfile.extractfile := [] |}.



(** * Properties *)

Lemma move_event_data_shape : move_event_data = move_to_winlog "event_data" "event_data".
Proof. reflexivity. Qed.

Lemma move_log_name_shape : move_log_name = move_to_winlog "log_name" "channel".
Proof. reflexivity. Qed.

Lemma move_event_id_shape : move_event_id = move_to_winlog "event_id" "event_id".
Proof. reflexivity. Qed.

Lemma contains_true k (d : dict) : Py.contains k d = true ↔ is_Some (d !! k).
Proof. unfold Py.contains. apply bool_decide_eq_true. Qed.

Lemma contains_false k (d : dict) : Py.contains k d = false ↔ d !! k = None.
Proof.
  unfold Py.contains. rewrite bool_decide_eq_false, eq_None_not_Some. done.
Qed.

Lemma move_to_winlog_Ok src dst (s s' : dict) :
  src ≠ "winlog" →
  move_to_winlog src dst s = Ok s' →
  (s !! src = None ∧ s' = s) ∨
  (∃ v w, s !! src = Some v ∧ s !! "winlog" = Some (JObject w) ∧
          s' = delete src (<["winlog" := JObject (<[dst := v]> w)]> s)).
Proof.
  intros Hne. unfold move_to_winlog.
  destruct (Py.contains src s) eqn:Hc.
  - apply contains_true in Hc as [v Hv].
    unfold Py.dict_getitem, Py.setitem2, Py.dict_getitem. rewrite Hv. cbn.
    destruct (s !! "winlog") as [[]|] eqn:Hw; cbn; try discriminate.
    unfold Py.dict_delitem. rewrite lookup_insert_ne by done. rewrite Hv.
    intros [= <-]. right. eauto.
  - apply contains_false in Hc. intros [= <-]. by left.
Qed.

Lemma try_delitem (s : dict) k :
  try_except_KeyError (Py.dict_delitem s k) s = Ok (delete k s).
Proof.
  unfold Py.dict_delitem. destruct (s !! k) eqn:Hk; cbn; [done|].
  by rewrite delete_id.
Qed.

Lemma event_data_of_lookup (s : dict) k :
  event_data_of s !! k =
    if bool_decide (k ∈ kept_at_top_level) then None else s !! k.
Proof.
  unfold event_data_of. rewrite map_lookup_filter.
  destruct (s !! k) as [x|]; cbn; [|by case_bool_decide].
  case_bool_decide; case_guard; cbn in *; done.
Qed.

Lemma setitem2_Ok (s : dict) k1 k2 v w :
  s !! k1 = Some (JObject w) →
  Py.setitem2 s k1 k2 v = Ok (<[k1 := JObject (<[k2 := v]> w)]> s).
Proof. intros H. unfold Py.setitem2, Py.dict_getitem. by rewrite H. Qed.

(** What lines 119 to 131 do with [Hostname] and [Channel]. *)
Lemma move_special (s : dict) src dst w :
  src ≠ "winlog" →
  s !! "winlog" = Some (JObject w) →
  try_except_KeyError
    (x ← Py.dict_getitem s src;
     s1 ← Py.setitem2 s "winlog" dst x;
     Py.dict_delitem s1 src) s =
  Ok match s !! src with
     | Some x => delete src (<["winlog" := JObject (<[dst := x]> w)]> s)
     | None => s
     end.
Proof.
  intros Hne Hw. unfold Py.dict_getitem at 1.
  destruct (s !! src) as [x|] eqn:Hx; cbn; [|done].
  rewrite (setitem2_Ok _ _ _ _ _ Hw). cbn.
  unfold Py.dict_delitem. rewrite lookup_insert_ne by done. by rewrite Hx.
Qed.

Lemma dict_getitem_Some (s : dict) k v :
  s !! k = Some v → Py.dict_getitem s k = Ok v.
Proof. intros H. unfold Py.dict_getitem. by rewrite H. Qed.

Lemma dict_delitem_Some (s : dict) k v :
  s !! k = Some v → Py.dict_delitem s k = Ok (delete k s).
Proof. intros H. unfold Py.dict_delitem. by rewrite H. Qed.

Lemma bind_Ok {A B} (a : A) (f : A → result B) : Ok a ≫= f = f a.
Proof. reflexivity. Qed.

(** Lookups through the map operations the normaliser uses. *)
Ltac lookups :=
  repeat first
    [ rewrite lookup_difference | rewrite event_data_of_lookup
    | rewrite lookup_insert | rewrite lookup_delete | rewrite lookup_empty ].

(** Membership of a key in a literal list of keys: decided by evaluation
    for a literal key, by cases otherwise. *)
Ltac literal_keys :=
  repeat match goal with
         | |- context [bool_decide (String ?a ?k' ∈ ?l)] =>
             let k := constr:(String a k') in
             let b := eval vm_compute in (bool_decide (k ∈ l)) in
             match b with
             | true => change (bool_decide (k ∈ l)) with true
             | false => change (bool_decide (k ∈ l)) with false
             end
         end;
  cbv iota.

Ltac keys :=
  unfold kept_at_top_level in *;
  repeat match goal with
         | H : String _ _ ∈ _ |- _ =>
             first [ by (exfalso; revert H; apply (bool_decide_unpack (_ ∉ _));
                         vm_compute)
                   | clear H ]
         | H : _ ∈ _ :: _ |- _ => apply elem_of_cons in H as [?|H]; simplify_eq
         | H : _ ∈ [] |- _ => by apply elem_of_nil in H
         end;
  repeat match goal with
         | H : String _ _ ∉ _ |- _ =>
             first [ by (exfalso; apply H; apply (bool_decide_unpack _); vm_compute)
                   | clear H ]
         | H : _ ∉ _ :: _ |- _ => apply not_elem_of_cons in H as [? H]
         | H : _ ∉ [] |- _ => clear H
         end;
  try done; try congruence;
  lazymatch goal with
  | |- _ ∉ _ =>
      rewrite ?not_elem_of_cons;
      repeat split; first [ done | congruence | apply not_elem_of_nil ]
  | |- _ ∈ _ => by (apply (bool_decide_unpack _); vm_compute)
  | |- _ => idtac
  end.

Ltac cases :=
  literal_keys;
  repeat (case_decide; simplify_eq; literal_keys);
  repeat case_bool_decide;
  try done;
  repeat case_match;
  try done.

Lemma event_data_of_winlog (s : dict) x :
  event_data_of
    (delete "host" (delete "type" (delete "EventID" (<["winlog" := x]> s)))) =
  event_data_of (delete "host" (delete "type" (delete "EventID" s))).
Proof. apply map_eq. intros k. lookups. cases. Qed.

(** Lines 94 to 131 on a record that has [EventID] and whose [winlog] is a
    dictionary: the branch runs to its end, and this is what it leaves. *)
Lemma move_nxlog_moved (s : dict) v w :
  s !! "EventID" = Some v →
  s !! "winlog" = Some (JObject w) →
  ∃ s', move_nxlog s = Ok s' ∧
     let w1 := <["event_data" :=
                  JObject (event_data_of (delete "host" (delete "type" (delete "EventID" s))))]>
                (<["event_id" := v]> w) in
     let w2 := match s !! "Hostname" with
               | Some h => <["computer_name" := h]> w1
               | None => w1
               end in
     let w3 := match s !! "Channel" with
               | Some c => <["channel" := c]> w2
               | None => w2
               end in
     s' !! "winlog" = Some (JObject w3) ∧
     ∀ k, k ≠ "winlog" →
       s' !! k = if bool_decide (k ∈ ["log"; "@timestamp"; "@version"])
                 then s !! k else None.
Proof.
  intros Hv Hw. unfold move_nxlog.
  rewrite (proj2 (contains_true _ _)) by (by rewrite Hv).
  rewrite (dict_getitem_Some _ _ _ Hv), bind_Ok.
  rewrite (setitem2_Ok _ _ _ _ _ Hw), bind_Ok.
  erewrite dict_delitem_Some, bind_Ok by (by rewrite lookup_insert_ne).
  rewrite try_delitem, bind_Ok, try_delitem, bind_Ok.
  erewrite setitem2_Ok, bind_Ok
    by (by rewrite !lookup_delete_ne, lookup_insert_eq).
  rewrite event_data_of_winlog.
  set (ed := event_data_of _) in *.
  set (w1 := <["event_data" := JObject ed]> _) in *.
  set (s5 := _ ∖ ed).
  assert (F1 : s5 !! "winlog" = Some (JObject w1)).
  { subst s5 ed. lookups. cases. }
  assert (F2 : ∀ k, k ≠ "winlog" →
    s5 !! k = if bool_decide (k ∈ kept_at_top_level) then s !! k else None).
  { intros k Hk. subst s5 ed. lookups. cases. }
  clearbody s5.
  rewrite (move_special _ "Hostname" _ w1), bind_Ok by done.
  rewrite (F2 "Hostname") by done.
  rewrite bool_decide_true by keys.
  set (w2 := match s !! "Hostname" with
             | Some h => <["computer_name" := h]> w1
             | None => w1
             end).
  set (s6 := match s !! "Hostname" with Some _ => _ | None => _ end).
  assert (G1 : s6 !! "winlog" = Some (JObject w2)).
  { subst s6 w2. destruct (s !! "Hostname"); [|done]. lookups. cases. }
  assert (G2 : ∀ k, k ≠ "winlog" →
    s6 !! k = if decide (k = "Hostname") then None
              else if bool_decide (k ∈ kept_at_top_level) then s !! k else None).
  { intros k Hk. subst s6. destruct (s !! "Hostname") eqn:Hh.
    - lookups. rewrite F2 by done. cases.
    - rewrite F2 by done. cases. }
  clearbody s6. clear F1 F2.
  rewrite (move_special _ "Channel" _ w2) by done.
  rewrite (G2 "Channel") by done.
  rewrite decide_False, bool_decide_true by (done || keys).
  eexists. split; [reflexivity|]. split.
  - destruct (s !! "Channel"); [|done]. lookups. cases.
  - intros k Hk. destruct (s !! "Channel") eqn:Hc.
    + lookups. rewrite G2 by done. cases; keys.
    + rewrite G2 by done. cases; keys.
Qed.

(** Lines 94 to 131 raise [TypeError] when [winlog] is not a dictionary. *)
Lemma move_nxlog_TypeError (s : dict) v x :
  s !! "EventID" = Some v →
  s !! "winlog" = Some x →
  (∀ w, x ≠ JObject w) →
  move_nxlog s = Raise TypeError.
Proof.
  intros Hv Hw Hx. unfold move_nxlog.
  rewrite (proj2 (contains_true _ _)) by (by rewrite Hv).
  rewrite (dict_getitem_Some _ _ _ Hv), bind_Ok.
  unfold Py.setitem2. rewrite (dict_getitem_Some _ _ _ Hw), bind_Ok.
  destruct x; try done. by destruct (Hx d).
Qed.

Lemma move_nxlog_Ok (s s' : dict) :
  move_nxlog s = Ok s' →
  (s !! "EventID" = None ∧ s' = s) ∨
  (∃ v w, s !! "EventID" = Some v ∧ s !! "winlog" = Some (JObject w) ∧
     let w1 := <["event_data" :=
                  JObject (event_data_of (delete "host" (delete "type" (delete "EventID" s))))]>
                (<["event_id" := v]> w) in
     let w2 := match s !! "Hostname" with
               | Some h => <["computer_name" := h]> w1
               | None => w1
               end in
     let w3 := match s !! "Channel" with
               | Some c => <["channel" := c]> w2
               | None => w2
               end in
     s' !! "winlog" = Some (JObject w3) ∧
     ∀ k, k ≠ "winlog" →
       s' !! k = if bool_decide (k ∈ ["log"; "@timestamp"; "@version"])
                 then s !! k else None).
Proof.
  intros H. destruct (s !! "EventID") as [v|] eqn:Hv.
  2:{ left. split; [done|]. unfold move_nxlog in H.
      rewrite (proj2 (contains_false _ _) Hv) in H. congruence. }
  right. exists v.
  destruct (s !! "winlog") as [x|] eqn:Hw.
  2:{ unfold move_nxlog, Py.setitem2 in H.
      rewrite (proj2 (contains_true _ _)) in H by (by rewrite Hv).
      rewrite (dict_getitem_Some _ _ _ Hv), bind_Ok in H.
      unfold Py.dict_getitem in H. rewrite Hw in H. discriminate. }
  destruct x as [| | | | | |w];
    try (rewrite (move_nxlog_TypeError _ _ _ Hv Hw) in H by done; discriminate).
  exists w. split; [done|]. split; [done|].
  destruct (move_nxlog_moved _ _ _ Hv Hw) as (s'' & Hs & Hp).
  rewrite Hs in H. by injection H as <-.
Qed.

Lemma bind_Ok_inv {A B} (r : result A) (f : A → result B) b :
  r ≫= f = Ok b → ∃ a, r = Ok a ∧ f a = Ok b.
Proof. destruct r as [a|e]; [eauto|discriminate]. Qed.

Lemma sub_insert_eq (s : dict) k1 k2 w :
  sub k1 k2 (<[k1 := JObject w]> s) = w !! k2.
Proof. unfold sub. by rewrite lookup_insert_eq. Qed.

Lemma sub_insert_ne (s : dict) k k1 k2 x :
  k ≠ k1 → sub k1 k2 (<[k := x]> s) = sub k1 k2 s.
Proof. intros. unfold sub. by rewrite lookup_insert_ne. Qed.

Lemma sub_delete_ne (s : dict) k k1 k2 :
  k ≠ k1 → sub k1 k2 (delete k s) = sub k1 k2 s.
Proof. intros. unfold sub. by rewrite lookup_delete_ne. Qed.

Lemma sub_Some (s : dict) k1 k2 w :
  s !! k1 = Some (JObject w) → sub k1 k2 s = w !! k2.
Proof. intros H. unfold sub. by rewrite H. Qed.

(** A relocation of lines 134 to 150: the key is gone from the top level,
    its value sits in [winlog], nothing else moved. *)
Lemma move_to_winlog_props src dst (s s' : dict) :
  src ≠ "winlog" →
  move_to_winlog src dst s = Ok s' →
  s' !! src = None ∧
  (∀ k, k ≠ "winlog" → k ≠ src → s' !! k = s !! k) ∧
  (∀ k2, k2 ≠ dst → sub "winlog" k2 s' = sub "winlog" k2 s) ∧
  (∀ v, s !! src = Some v → sub "winlog" dst s' = Some v) ∧
  (s !! src = None → s' = s).
Proof.
  intros Hne H.
  destruct (move_to_winlog_Ok _ _ _ _ Hne H) as [[Hs ->]|(v & w & Hs & Hw & ->)].
  - repeat split; try done. intros v Hv. congruence.
  - repeat split.
    + by rewrite lookup_delete_eq.
    + intros k ? ?. by rewrite lookup_delete_ne, lookup_insert_ne.
    + intros k2 ?. rewrite sub_delete_ne, sub_insert_eq, (sub_Some _ _ _ _ Hw) by done.
      by rewrite lookup_insert_ne.
    + intros v' Hv'. rewrite sub_delete_ne, sub_insert_eq by done.
      rewrite lookup_insert_eq. congruence.
    + congruence.
Qed.

(** Lines 142 to 146. *)
Lemma fix_channel_props (s s' : dict) :
  fix_channel s = Ok s' →
  (∀ k, k ≠ "winlog" → s' !! k = s !! k) ∧
  (∀ k2, k2 ≠ "channel" → sub "winlog" k2 s' = sub "winlog" k2 s) ∧
  (sub "winlog" "channel" s = Some (JString "security") →
   sub "winlog" "channel" s' = Some (JString "Security")) ∧
  (sub "winlog" "channel" s ≠ Some (JString "security") → s' = s) ∧
  sub "winlog" "channel" s' ≠ Some (JString "security").
Proof.
  unfold fix_channel, Py.getitem2, Py.dict_getitem.
  destruct (s !! "winlog") as [x|] eqn:Hw; cbn.
  2:{ intros [= <-]. repeat split; try done; unfold sub; by rewrite Hw. }
  destruct x as [| | | | | |w]; cbn; try discriminate.
  unfold Py.dict_getitem.
  destruct (w !! "channel") as [c|] eqn:Hc; cbn.
  2:{ intros [= <-]. repeat split; try done;
      rewrite (sub_Some _ _ _ _ Hw), Hc; done. }
  destruct (Py.eq_str c "security") eqn:He.
  - destruct c; try discriminate. cbn in He.
    apply bool_decide_eq_true in He as ->.
    rewrite (setitem2_Ok _ _ _ _ _ Hw). cbn. intros [= <-]. repeat split.
    + intros k ?. by rewrite lookup_insert_ne.
    + intros k2 ?. rewrite sub_insert_eq, (sub_Some _ _ _ _ Hw).
      by rewrite lookup_insert_ne.
    + intros _. by rewrite sub_insert_eq, lookup_insert_eq.
    + intros Hn. exfalso. apply Hn. by rewrite (sub_Some _ _ _ _ Hw).
    + by rewrite sub_insert_eq, lookup_insert_eq.
  - cbn. intros [= <-]. repeat split; try done;
      rewrite (sub_Some _ _ _ _ Hw), Hc; intros [= ->]; cbn in He;
      by rewrite bool_decide_true in He.
Qed.

(** Line 152. *)
Lemma set_event_code_props (s s' : dict) :
  set_event_code s = Ok s' →
  (∀ k, k ≠ "event" → s' !! k = s !! k) ∧
  ∃ w eid e, s !! "winlog" = Some (JObject w) ∧ w !! "event_id" = Some eid ∧
             s' !! "event" = Some (JObject e) ∧ e !! "code" = Some eid.
Proof.
  unfold set_event_code, Py.getitem2, Py.dict_getitem.
  destruct (s !! "winlog") as [x|] eqn:Hw; cbn; [|discriminate].
  destruct x as [| | | | | |w]; cbn; try discriminate.
  unfold Py.dict_getitem.
  destruct (w !! "event_id") as [eid|] eqn:Hc; cbn; [|discriminate].
  unfold Py.dict_setdefault, Py.setitem2, Py.dict_getitem.
  destruct (s !! "event") as [x|] eqn:He; cbn.
  - rewrite He. cbn. destruct x as [| | | | | |e]; cbn; try discriminate.
    intros [= <-]. split.
    + intros k ?. by rewrite lookup_insert_ne.
    + exists w, eid, (<["code" := eid]> e).
      by rewrite !lookup_insert_eq.
  - rewrite lookup_insert_eq. cbn. intros [= <-]. split.
    + intros k ?. by rewrite !lookup_insert_ne.
    + exists w, eid, (<["code" := eid]> ∅).
      by rewrite !lookup_insert_eq.
Qed.

(** The six steps of a successful run of the normaliser. *)
Lemma normalize_dict_steps logfile (d out : dict) :
  normalize_dict logfile d = Ok out →
  ∃ s1 s2 s3 s4 s5,
    move_nxlog (Py.dict_setdefault (<["log" := log_of logfile]> d) "winlog" (JObject ∅))
      = Ok s1 ∧
    move_event_data s1 = Ok s2 ∧
    move_log_name s2 = Ok s3 ∧
    fix_channel s3 = Ok s4 ∧
    move_event_id s4 = Ok s5 ∧
    set_event_code s5 = Ok out.
Proof.
  unfold normalize_dict, relocate. intros H.
  apply bind_Ok_inv in H as (s3 & H & H4).
  apply bind_Ok_inv in H as (s1 & H1 & H).
  apply bind_Ok_inv in H as (s2 & H2 & H3).
  apply bind_Ok_inv in H4 as (s4 & H4 & H5).
  apply bind_Ok_inv in H5 as (s5 & H5 & H6).
  by exists s1, s2, s3, s4, s5.
Qed.

Lemma setdefault_lookup_ne (s : dict) k k' x :
  k ≠ k' → Py.dict_setdefault s k x !! k' = s !! k'.
Proof.
  intros. unfold Py.dict_setdefault. destruct (s !! k); [done|].
  by rewrite lookup_insert_ne.
Qed.

(** After lines 94 to 131 the file name is still stamped and [EventID] is
    gone. *)
Lemma move_nxlog_top (s s' : dict) :
  move_nxlog s = Ok s' →
  s' !! "log" = s !! "log" ∧ s' !! "EventID" = None.
Proof.
  intros H. destruct (move_nxlog_Ok _ _ H) as [[? ->]|(v & w & _ & _ & _ & Hk)]; [done|].
  split; rewrite Hk by done; cases.
Qed.

Lemma normalize_dict_canonical logfile (d out : dict) :
  normalize_dict logfile d = Ok out → canonical logfile out.
Proof.
  intros H.
  destruct (normalize_dict_steps _ _ _ H) as (s1 & s2 & s3 & s4 & s5 & H1 & H2 & H3 & H4 & H5 & H6).
  apply move_nxlog_top in H1 as [L1 E1].
  rewrite setdefault_lookup_ne, lookup_insert_eq in L1 by done.
  rewrite move_event_data_shape in H2.
  apply move_to_winlog_props in H2 as (A2 & K2 & _); [|done].
  rewrite move_log_name_shape in H3.
  apply move_to_winlog_props in H3 as (A3 & K3 & _); [|done].
  apply fix_channel_props in H4 as (K4 & _ & _ & _ & C4).
  rewrite move_event_id_shape in H5.
  apply move_to_winlog_props in H5 as (A5 & K5 & W5 & _); [|done].
  apply set_event_code_props in H6 as (K6 & w & eid & e & Hw & Hi & He & Hc).
  unfold canonical.
  rewrite !K6, !K5, A5, !K4, !K3, A3, !K2, A2 by done.
  repeat split; try done.
  exists w, e, eid. repeat split; try done.
  by rewrite <- (sub_Some _ _ _ _ Hw), W5.
Qed.

Lemma canonical_fixpoint logfile (out : dict) :
  canonical logfile out → normalize_dict logfile out = Ok out.
Proof.
  intros (L & A1 & A2 & A3 & A4 & w & e & eid & Hw & Hi & Hch & He & Hc).
  unfold normalize_dict, relocate.
  rewrite (insert_id _ _ _ L).
  unfold Py.dict_setdefault at 1. rewrite Hw.
  unfold move_nxlog, move_event_data, move_log_name, move_event_id.
  rewrite (proj2 (contains_false _ _) A1), bind_Ok.
  rewrite (proj2 (contains_false _ _) A2), bind_Ok.
  rewrite (proj2 (contains_false _ _) A3), bind_Ok.
  assert (fix_channel out = Ok out) as ->.
  { unfold fix_channel, Py.getitem2.
    rewrite (dict_getitem_Some _ _ _ Hw), bind_Ok. cbn. unfold Py.dict_getitem.
    destruct (w !! "channel") as [c|]; [|done]. cbn.
    destruct c; try done. cbn. case_bool_decide; [congruence|done]. }
  rewrite bind_Ok, (proj2 (contains_false _ _) A4), bind_Ok.
  unfold set_event_code, Py.getitem2, Py.dict_setdefault.
  rewrite (dict_getitem_Some _ _ _ Hw), bind_Ok. cbn.
  rewrite (dict_getitem_Some _ _ _ Hi), bind_Ok, He.
  rewrite (setitem2_Ok _ _ _ _ _ He).
  by rewrite (insert_id e), (insert_id out).
Qed.

Lemma sub_same (s s' : dict) k1 k2 :
  s' !! k1 = s !! k1 → sub k1 k2 s' = sub k1 k2 s.
Proof. intros H. unfold sub. by rewrite H. Qed.

(** A relocation of lines 134 to 150 cannot fail once [winlog] is a
    dictionary, and [winlog] stays one. *)
Lemma move_to_winlog_total src dst (s : dict) w :
  src ≠ "winlog" →
  s !! "winlog" = Some (JObject w) →
  ∃ s' w', move_to_winlog src dst s = Ok s' ∧
           s' !! "winlog" = Some (JObject w') ∧
           (∀ k2, k2 ≠ dst → w' !! k2 = w !! k2).
Proof.
  intros Hne Hw. unfold move_to_winlog.
  destruct (Py.contains src s) eqn:Hc.
  - apply contains_true in Hc as [v Hv].
    rewrite (dict_getitem_Some _ _ _ Hv), bind_Ok.
    rewrite (setitem2_Ok _ _ _ _ _ Hw), bind_Ok.
    erewrite dict_delitem_Some by (by rewrite lookup_insert_ne).
    eexists _, _. split; [done|]. split.
    + by rewrite lookup_delete_ne, lookup_insert_eq.
    + intros k2 ?. by rewrite lookup_insert_ne.
  - by exists s, w.
Qed.

(** Lines 142 to 146 cannot fail once [winlog] is a dictionary. *)
Lemma fix_channel_total (s : dict) w :
  s !! "winlog" = Some (JObject w) →
  ∃ s' w', fix_channel s = Ok s' ∧
           s' !! "winlog" = Some (JObject w') ∧
           (∀ k2, k2 ≠ "channel" → w' !! k2 = w !! k2).
Proof.
  intros Hw. unfold fix_channel, Py.getitem2.
  rewrite (dict_getitem_Some _ _ _ Hw), bind_Ok. cbn. unfold Py.dict_getitem.
  destruct (w !! "channel") as [c|]; cbn; [|by exists s, w].
  destruct (Py.eq_str c "security"); cbn; [|by exists s, w].
  rewrite (setitem2_Ok _ _ _ _ _ Hw). cbn.
  eexists _, _. split; [done|]. split.
  - by rewrite lookup_insert_eq.
  - intros k2 ?. by rewrite lookup_insert_ne.
Qed.

(** Line 152 succeeds when [winlog] holds an event id and [event] is
    absent or a dictionary. *)
Lemma set_event_code_total (s : dict) w eid :
  s !! "winlog" = Some (JObject w) →
  w !! "event_id" = Some eid →
  (s !! "event" = None ∨ ∃ e, s !! "event" = Some (JObject e)) →
  ∃ s', set_event_code s = Ok s'.
Proof.
  intros Hw Hi He. unfold set_event_code, Py.getitem2.
  rewrite (dict_getitem_Some _ _ _ Hw), bind_Ok. cbn.
  rewrite (dict_getitem_Some _ _ _ Hi), bind_Ok.
  unfold Py.dict_setdefault. destruct He as [He|[e He]]; rewrite He.
  - erewrite setitem2_Ok by apply lookup_insert_eq. eauto.
  - erewrite setitem2_Ok by done. eauto.
Qed.

(** Line 152 raises [KeyError] when [winlog] holds no event id. *)
Lemma set_event_code_KeyError (s : dict) w :
  s !! "winlog" = Some (JObject w) →
  w !! "event_id" = None →
  set_event_code s = Raise (KeyError "event_id").
Proof.
  intros Hw Hi. unfold set_event_code, Py.getitem2.
  rewrite (dict_getitem_Some _ _ _ Hw), bind_Ok. cbn.
  unfold Py.dict_getitem. by rewrite Hi.
Qed.

(** Lines 90 and 91: the state the rules start from. *)
Lemma start_winlog logfile (d : dict) :
  (d !! "winlog" = None ∧
   Py.dict_setdefault (<["log" := log_of logfile]> d) "winlog" (JObject ∅) !! "winlog"
     = Some (JObject ∅)) ∨
  (∃ x, d !! "winlog" = Some x ∧
   Py.dict_setdefault (<["log" := log_of logfile]> d) "winlog" (JObject ∅) !! "winlog"
     = Some x).
Proof.
  unfold Py.dict_setdefault. rewrite lookup_insert_ne by done.
  destruct (d !! "winlog") as [x|] eqn:Hw.
  - right. exists x. by rewrite lookup_insert_ne.
  - left. by rewrite lookup_insert_eq.
Qed.

Lemma start_lookup logfile (d : dict) k :
  k ≠ "winlog" → k ≠ "log" →
  Py.dict_setdefault (<["log" := log_of logfile]> d) "winlog" (JObject ∅) !! k = d !! k.
Proof. intros. by rewrite setdefault_lookup_ne, lookup_insert_ne. Qed.

(** The whole normaliser on an nxlog record whose [winlog] is absent or a
    dictionary: it succeeds, [EventID] becomes the event id, and every
    key outside the kept ones (and outside [EventID], [type], [host]) is
    in [winlog.event_data]. *)
Lemma normalize_dict_nxlog logfile (d : dict) v :
  d !! "EventID" = Some v →
  (d !! "winlog" = None ∨ ∃ w, d !! "winlog" = Some (JObject w)) →
  ∃ out ed,
    normalize_dict logfile d = Ok out ∧
    sub "winlog" "event_id" out = Some v ∧
    sub "event" "code" out = Some v ∧
    sub "winlog" "event_data" out = Some (JObject ed) ∧
    ∀ k, ed !! k =
      if bool_decide (k ∈ ["winlog"; "log"; "Channel"; "Hostname"; "@timestamp";
                           "@version"; "EventID"; "type"; "host"])
      then None else d !! k.
Proof.
  intros Hv Hwd. unfold normalize_dict, relocate.
  set (s0 := Py.dict_setdefault _ _ _).
  assert (∃ w0, s0 !! "winlog" = Some (JObject w0)) as [w0 Hw0].
  { subst s0. destruct (start_winlog logfile d) as [[_ H]|(x & Hx & H)]; [eauto|].
    destruct Hwd as [?|[w ?]]; [congruence|]. exists w. congruence. }
  assert (Hv0 : s0 !! "EventID" = Some v).
  { subst s0. by rewrite start_lookup. }
  assert (Hk0 : ∀ k, k ≠ "winlog" → k ≠ "log" → s0 !! k = d !! k).
  { intros. subst s0. by apply start_lookup. }
  clearbody s0.
  destruct (move_nxlog_moved _ _ _ Hv0 Hw0) as (s1 & -> & W1 & K1).
  rewrite bind_Ok.
  unfold move_event_data, move_log_name.
  rewrite (proj2 (contains_false "event_data" s1)), bind_Ok by (rewrite K1 by done; cases).
  rewrite (proj2 (contains_false "log_name" s1)), bind_Ok by (rewrite K1 by done; cases).
  destruct (fix_channel_total _ _ W1) as (s4 & w4 & H4 & W4 & E4).
  rewrite H4, bind_Ok.
  apply fix_channel_props in H4 as (K4 & _).
  unfold move_event_id.
  rewrite (proj2 (contains_false "event_id" s4)), bind_Ok
    by (rewrite K4, K1 by done; cases).
  set (ed := event_data_of _) in W1.
  assert (I4 : w4 !! "event_id" = Some v).
  { rewrite E4 by done. destruct (s0 !! "Channel"), (s0 !! "Hostname"); lookups; cases. }
  assert (D4 : w4 !! "event_data" = Some (JObject ed)).
  { rewrite E4 by done. destruct (s0 !! "Channel"), (s0 !! "Hostname"); lookups; cases. }
  destruct (set_event_code_total s4 w4 v W4 I4) as [out Hout].
  { left. rewrite K4, K1 by done. cases. }
  exists out, ed. split; [done|].
  apply set_event_code_props in Hout as (K6 & w & eid & e & Hw & Hi & He & Hc).
  assert (w = w4) as -> by congruence.
  assert (eid = v) as -> by congruence.
  rewrite !(sub_same s4 out "winlog") by (by apply K6).
  rewrite !(sub_Some _ _ _ _ W4), (sub_Some _ _ _ _ He).
  repeat split; try done.
  intros k. subst ed. lookups.
  destruct (decide (k = "winlog")) as [->|Hn1]; [cases|].
  destruct (decide (k = "log")) as [->|Hn2]; [cases|].
  rewrite Hk0 by done. clear -Hn1 Hn2. cases; keys.
Qed.

(** The same, read from a successful run. *)
Lemma normalize_dict_nxlog_Ok logfile (d out : dict) v :
  d !! "EventID" = Some v →
  normalize_dict logfile d = Ok out →
  sub "winlog" "event_id" out = Some v ∧
  sub "event" "code" out = Some v ∧
  ∃ ed, sub "winlog" "event_data" out = Some (JObject ed) ∧
    ∀ k, ed !! k =
      if bool_decide (k ∈ ["winlog"; "log"; "Channel"; "Hostname"; "@timestamp";
                           "@version"; "EventID"; "type"; "host"])
      then None else d !! k.
Proof.
  intros Hv H.
  assert (Hwd : d !! "winlog" = None ∨ ∃ w, d !! "winlog" = Some (JObject w)).
  { destruct (normalize_dict_steps _ _ _ H) as (s1 & _ & _ & _ & _ & H1 & _).
    apply move_nxlog_Ok in H1 as [[H1 _]|(v' & w & _ & Hw & _)].
    - by rewrite start_lookup in H1 by done; congruence.
    - destruct (start_winlog logfile d) as [[? _]|(x & Hx & Hx')]; [by left|].
      right. exists w. congruence. }
  destruct (normalize_dict_nxlog logfile d v Hv Hwd) as (out' & ed & H' & ? & ? & ? & ?).
  assert (out' = out) as -> by congruence. eauto.
Qed.

Lemma fmap_Ok_inv {A B} (f : A → B) (r : result A) b :
  f <$> r = Ok b → ∃ a, r = Ok a ∧ b = f a.
Proof. destruct r as [a|e]; [|discriminate]. intros [= <-]. eauto. Qed.

Lemma normalize_Ok_inv logfile raw out :
  normalize logfile raw = Ok out →
  ∃ d o, raw = JObject d ∧ out = JObject o ∧ normalize_dict logfile d = Ok o.
Proof.
  destruct raw; try discriminate. cbn. intros H.
  apply fmap_Ok_inv in H as (o & H & ->). eauto.
Qed.

(** ** The claims on the normaliser *)

(** C5, field relocation completeness: the nxlog sample record
    [{"EventID": 7, "Foo": "bar", "Hostname": "H1", "Channel": "Security",
    "@timestamp": "t"}] is normalised, under any label, to exactly the
    record with [winlog = {event_id: 7, event_data: {Foo: bar},
    computer_name: H1, channel: Security}], [event = {code: 7}], the
    timestamp kept and [log.file.name] set to the label. *)
Theorem field_relocation_complete (logfile : string) :
  normalize logfile (JObject nxlog_sample)
  = Ok (JObject (nxlog_sample_normalized logfile)).
Proof. vm_compute. reflexivity. Qed.

(** C3, idempotence: where the normaliser succeeds on a record, running
    it again on its own output with the same label succeeds and returns
    that output unchanged. *)
Theorem normalize_idempotent logfile raw out :
  normalize logfile raw = Ok out →
  normalize logfile out = Ok out.
Proof.
  intros H. apply normalize_Ok_inv in H as (d & o & -> & -> & H).
  apply normalize_dict_canonical, canonical_fixpoint in H.
  cbn. by rewrite H.
Qed.

Lemma normalize_idempotent_witness :
  normalize "a.tar.gz/m.json" (JObject winlogbeat6_sample)
    = Ok (JObject {[ "winlog" := JObject {[ "event_id" := JInt 4624;
                        "channel" := JString "Security";
                        "event_data" := JObject {[ "TargetUserName" := JString "alice" ]} ]};
                     "event" := JObject {[ "code" := JInt 4624 ]};
                     "log" := log_of "a.tar.gz/m.json" ]}) ∧
  normalize "a.tar.gz/m.json"
    (JObject {[ "winlog" := JObject {[ "event_id" := JInt 4624;
                   "channel" := JString "Security";
                   "event_data" := JObject {[ "TargetUserName" := JString "alice" ]} ]};
                "event" := JObject {[ "code" := JInt 4624 ]};
                "log" := log_of "a.tar.gz/m.json" ]})
    = Ok (JObject {[ "winlog" := JObject {[ "event_id" := JInt 4624;
                        "channel" := JString "Security";
                        "event_data" := JObject {[ "TargetUserName" := JString "alice" ]} ]};
                     "event" := JObject {[ "code" := JInt 4624 ]};
                     "log" := log_of "a.tar.gz/m.json" ]}).
Proof.
  split; [vm_compute; reflexivity|].
  apply (normalize_idempotent _ (JObject winlogbeat6_sample)).
  vm_compute. reflexivity.
Defined.

(** C4, the canonical-record invariant: where the normaliser succeeds,
    the output has an event id under [winlog.event_id], the same value
    under [event.code], and [log.file.name] is the label supplied. *)
Theorem canonical_record_invariant logfile raw out :
  normalize logfile raw = Ok out →
  (∃ eid, at_path ["winlog"; "event_id"] out = Some eid ∧
          at_path ["event"; "code"] out = Some eid) ∧
  at_path ["log"; "file"; "name"] out = Some (JString logfile).
Proof.
  intros H. apply normalize_Ok_inv in H as (d & o & -> & -> & H).
  apply normalize_dict_canonical in H
    as (L & _ & _ & _ & _ & w & e & eid & Hw & Hi & _ & He & Hc).
  cbn. rewrite Hw, He, L. cbn. split.
  - exists eid. by rewrite Hi, Hc.
  - by rewrite lookup_singleton_eq.
Qed.

Lemma canonical_record_invariant_witness :
  (∃ eid, at_path ["winlog"; "event_id"]
            (JObject (nxlog_sample_normalized "a.tar.gz/m.json")) = Some eid ∧
          at_path ["event"; "code"]
            (JObject (nxlog_sample_normalized "a.tar.gz/m.json")) = Some eid) ∧
  at_path ["log"; "file"; "name"]
    (JObject (nxlog_sample_normalized "a.tar.gz/m.json"))
    = Some (JString "a.tar.gz/m.json").
Proof.
  apply (canonical_record_invariant _ (JObject nxlog_sample)).
  vm_compute. reflexivity.
Defined.

(** C1 as stated fails: on [{"EventID": 42, "event_id": 99}] the nxlog
    branch moves [event_id] into [winlog.event_data] before line 148 looks
    for it, so the event id of the result is 42 and not 99. *)
Lemma event_id_precedence_counterexample :
  ∃ out, normalize "a.tar.gz/m.json" (JObject both_ids_sample) = Ok out ∧
         at_path ["winlog"; "event_id"] out = Some (JInt 42) ∧
         at_path ["winlog"; "event_id"] out ≠ Some (JInt 99) ∧
         at_path ["event"; "code"] out = Some (JInt 42) ∧
         at_path ["event"; "code"] out ≠ Some (JInt 99).
Proof.
  eexists. split; [vm_compute; reflexivity|].
  repeat split; by vm_compute.
Qed.

(** C1, amended: a record with [EventID = 42] and top-level
    [event_id = 99], whose [winlog] is absent or a dictionary, is
    normalised to a record with [winlog.event_id = 42] and
    [event.code = 42]; the 99 ends up in [winlog.event_data.event_id]. *)
Theorem event_id_precedence_nxlog logfile (d : dict) :
  d !! "EventID" = Some (JInt 42) →
  d !! "event_id" = Some (JInt 99) →
  (d !! "winlog" = None ∨ ∃ w, d !! "winlog" = Some (JObject w)) →
  ∃ out, normalize logfile (JObject d) = Ok out ∧
         at_path ["winlog"; "event_id"] out = Some (JInt 42) ∧
         at_path ["event"; "code"] out = Some (JInt 42) ∧
         at_path ["winlog"; "event_data"; "event_id"] out = Some (JInt 99).
Proof.
  intros Hv Hi Hw.
  destruct (normalize_dict_nxlog logfile d _ Hv Hw) as (out & ed & H & Hid & Hc & Hed & Hk).
  exists (JObject out). cbn. rewrite H. split; [done|].
  unfold sub in Hid, Hc, Hed.
  destruct (out !! "winlog") as [wl|]; [|done].
  destruct (out !! "event") as [ev|]; [|done].
  cbn in *. rewrite Hid, Hc, Hed. cbn. repeat split; try done.
  rewrite Hk, Hi. cases.
Qed.

Lemma event_id_precedence_nxlog_witness :
  ∃ out, normalize "a.tar.gz/m.json" (JObject both_ids_sample) = Ok out ∧
         at_path ["winlog"; "event_id"] out = Some (JInt 42) ∧
         at_path ["event"; "code"] out = Some (JInt 42) ∧
         at_path ["winlog"; "event_data"; "event_id"] out = Some (JInt 99).
Proof.
  apply (event_id_precedence_nxlog "a.tar.gz/m.json" both_ids_sample).
  - reflexivity.
  - reflexivity.
  - left. reflexivity.
Defined.

(** Where line 148 does decide: without [EventID], a top-level
    [event_id] replaces whatever [winlog.event_id] held. *)
Lemma event_id_overrides_winlog logfile (d out : dict) v :
  d !! "EventID" = None →
  d !! "event_id" = Some v →
  normalize_dict logfile d = Ok out →
  sub "winlog" "event_id" out = Some v ∧ sub "event" "code" out = Some v.
Proof.
  intros He Hi H.
  destruct (normalize_dict_steps _ _ _ H) as (s1 & s2 & s3 & s4 & s5 & H1 & H2 & H3 & H4 & H5 & H6).
  apply move_nxlog_Ok in H1 as [[_ ->]|(v' & w & H1 & _)];
    [|by rewrite start_lookup in H1 by done; congruence].
  rewrite move_event_data_shape in H2.
  apply move_to_winlog_props in H2 as (_ & K2 & _); [|done].
  rewrite move_log_name_shape in H3.
  apply move_to_winlog_props in H3 as (_ & K3 & _); [|done].
  apply fix_channel_props in H4 as (K4 & _).
  rewrite move_event_id_shape in H5.
  apply move_to_winlog_props in H5 as (_ & _ & _ & W5 & _); [|done].
  specialize (W5 v). rewrite K4, K3, K2, start_lookup in W5 by done.
  specialize (W5 Hi).
  apply set_event_code_props in H6 as (K6 & w & eid & e & Hw & Hid & Hev & Hc).
  rewrite (sub_Some _ _ _ _ Hw) in W5.
  rewrite (sub_same s5 out "winlog") by (by apply K6).
  rewrite (sub_Some _ _ _ _ Hw), (sub_Some _ _ _ _ Hev). split; congruence.
Qed.

(** C7, missing event id: on a record with no top-level [EventID], no
    top-level [event_id], and a [winlog] that is absent or a dictionary
    without [event_id], lines 90 to 150 run through and line 152 raises
    [KeyError: 'event_id']; the normaliser returns no record. *)
Theorem missing_event_id_fails logfile (d : dict) :
  d !! "EventID" = None →
  d !! "event_id" = None →
  (d !! "winlog" = None ∨
   ∃ w, d !! "winlog" = Some (JObject w) ∧ w !! "event_id" = None) →
  (∃ s3 s4 s5,
     relocate logfile d = Ok s3 ∧
     fix_channel s3 = Ok s4 ∧
     move_event_id s4 = Ok s5 ∧
     set_event_code s5 = Raise (KeyError "event_id")) ∧
  normalize logfile (JObject d) = Raise (KeyError "event_id").
Proof.
  intros He Hi Hwd.
  assert (∃ s3 s4 s5,
     relocate logfile d = Ok s3 ∧ fix_channel s3 = Ok s4 ∧
     move_event_id s4 = Ok s5 ∧
     set_event_code s5 = Raise (KeyError "event_id")) as (s3 & s4 & s5 & H3 & H4 & H5 & H6).
  { unfold relocate. set (s0 := Py.dict_setdefault _ _ _).
    assert (∃ w0, s0 !! "winlog" = Some (JObject w0) ∧ w0 !! "event_id" = None)
      as (w0 & Hw0 & Hi0).
    { subst s0. destruct (start_winlog logfile d) as [[_ H]|(x & Hx & H)].
      - by exists ∅.
      - destruct Hwd as [?|(w & ? & ?)]; [congruence|]. exists w. split; congruence. }
    assert (He0 : s0 !! "EventID" = None) by (subst s0; by rewrite start_lookup).
    assert (Hi0' : s0 !! "event_id" = None) by (subst s0; by rewrite start_lookup).
    clearbody s0.
    unfold move_nxlog. rewrite (proj2 (contains_false _ _) He0), bind_Ok.
    rewrite move_event_data_shape, move_log_name_shape.
    destruct (move_to_winlog_total "event_data" "event_data" s0 w0)
      as (s2 & w2 & H2 & Hw2 & E2); [done..|].
    rewrite H2, bind_Ok.
    apply move_to_winlog_props in H2 as (_ & K2 & _); [|done].
    destruct (move_to_winlog_total "log_name" "channel" s2 w2)
      as (s3 & w3 & H3 & Hw3 & E3); [done..|].
    rewrite H3.
    apply move_to_winlog_props in H3 as (_ & K3 & _); [|done].
    destruct (fix_channel_total s3 w3 Hw3) as (s4 & w4 & H4 & Hw4 & E4).
    exists s3, s4, s4. split; [done|]. split; [done|].
    apply fix_channel_props in H4 as (K4 & _).
    split.
    - unfold move_event_id. rewrite (proj2 (contains_false _ _)); [done|].
      by rewrite K4, K3, K2.
    - apply (set_event_code_KeyError _ w4); [done|].
      by rewrite E4, E3, E2. }
  split; [by exists s3, s4, s5|].
  cbn. unfold normalize_dict. by rewrite H3, bind_Ok, H4, bind_Ok, H5, bind_Ok, H6.
Qed.

Lemma missing_event_id_fails_witness :
  (∃ s3 s4 s5,
     relocate "a.tar.gz/m.json" no_id_sample = Ok s3 ∧
     fix_channel s3 = Ok s4 ∧
     move_event_id s4 = Ok s5 ∧
     set_event_code s5 = Raise (KeyError "event_id")) ∧
  normalize "a.tar.gz/m.json" (JObject no_id_sample) = Raise (KeyError "event_id").
Proof.
  apply (missing_event_id_fails "a.tar.gz/m.json" no_id_sample).
  - reflexivity.
  - reflexivity.
  - right. exists {[ "channel" := JString "System" ]}. split; reflexivity.
Defined.

(** C10, the top-level [log]: the normalised record's [log] is exactly
    [{"file": {"name": label}}]; whatever [log] the raw record carried has
    no influence on the result; and the [winlog.event_data] the nxlog
    branch builds has no [log] key. *)
Theorem log_overwritten logfile (d : dict) :
  (∀ out, normalize logfile (JObject d) = Ok out →
     field "log" out
       = Some (JObject {[ "file" := JObject {[ "name" := JString logfile ]} ]}) ∧
     (is_Some (d !! "EventID") →
      ∃ ed, at_path ["winlog"; "event_data"] out = Some (JObject ed) ∧
            ed !! "log" = None)) ∧
  (∀ x, normalize logfile (JObject (<["log" := x]> d))
        = normalize logfile (JObject (delete "log" d))).
Proof.
  split.
  - intros out H. apply normalize_Ok_inv in H as (d' & o & [= <-] & -> & H).
    split.
    + by apply normalize_dict_canonical in H as (L & _).
    + intros [v Hv].
      destruct (normalize_dict_nxlog_Ok _ _ _ _ Hv H) as (_ & _ & ed & Hed & Hk).
      exists ed. unfold sub in Hed. cbn.
      destruct (o !! "winlog") as [wl|]; [|done]. cbn in Hed.
      rewrite Hed. split; [done|]. rewrite Hk. cases.
  - intros x. cbn. unfold normalize_dict, relocate.
    by rewrite insert_insert_eq, insert_delete_eq.
Qed.

(** ** The shipping loop *)

Lemma bytes_consumed_cons line lines :
  bytes_consumed (line :: lines) = len line + bytes_consumed lines.
Proof. reflexivity. Qed.

(** The lines of a file hold all of its bytes. *)
Lemma readlines_from_bytes cur bs :
  bytes_consumed (readlines_from cur bs) = len cur + len bs.
Proof.
  revert cur. induction bs as [|b bs IH]; intros cur; cbn [readlines_from].
  - destruct cur as [|c cur]; [done|].
    rewrite bytes_consumed_cons. unfold len, bytes_consumed.
    rewrite length_rev. cbn. lia.
  - destruct (Byte.eqb b x0a).
    + rewrite bytes_consumed_cons, IH. unfold len.
      rewrite length_rev. cbn [length]. lia.
    + rewrite IH. unfold len. cbn [length]. lia.
Qed.

Lemma readlines_bytes bs :
  bytes_consumed (readlines bs) = Z.of_nat (length bs).
Proof. unfold readlines. rewrite readlines_from_bytes. unfold len. cbn. lia. Qed.

Lemma len_nonneg line : 0 ≤ len line.
Proof. unfold len. lia. Qed.

Lemma bytes_consumed_nonneg lines : 0 ≤ bytes_consumed lines.
Proof.
  induction lines as [|l lines IH]; [done|].
  rewrite bytes_consumed_cons. pose proof (len_nonneg l). lia.
Qed.

Lemma bytes_consumed_take n lines :
  bytes_consumed (take n lines) ≤ bytes_consumed lines.
Proof.
  revert n. induction lines as [|l lines IH]; intros [|n]; cbn [take]; try done.
  - apply bytes_consumed_nonneg.
  - rewrite !bytes_consumed_cons. specialize (IH n). lia.
Qed.

Section ShippingFacts.

Context `{External}.

Lemma generate_action_ok logfile line p :
  line_ok json_loads logfile line →
  ∃ a, generate_action logfile line p = Ok (a, p + len line).
Proof.
  intros (source & out & Hl & Hn). unfold generate_action.
  rewrite Hl, bind_Ok, Hn, bind_Ok. eauto.
Qed.

Lemma generate_action_Ok_inv logfile line p a p' :
  generate_action logfile line p = Ok (a, p') →
  p' = p + len line ∧
  ∃ source rec, json_loads line = Ok source ∧
                normalize logfile source = Ok rec ∧ a = action_of rec.
Proof.
  unfold generate_action. intros Hg.
  apply bind_Ok_inv in Hg as (source & Hl & Hg).
  apply bind_Ok_inv in Hg as (rec & Hn & [= <- <-]).
  split; [done|]. by exists source, rec.
Qed.



(** The generator never reports more than it read, and all of it when it
    reaches the end. *)
Lemma generate_actions_progress logfile f p acts p' e :
  generate_actions logfile f p = (acts, p', e) →
  p ≤ p' ≤ p + bytes_consumed f ∧
  (e = None → p' = p + bytes_consumed f ∧ length acts = length f).
Proof.
  revert p acts. induction f as [|line f IH]; intros p acts; cbn [generate_actions].
  - intros [= <- <- <-]. unfold bytes_consumed. cbn. lia.
  - pose proof (bytes_consumed_nonneg (line :: f)) as Hnn.
    rewrite bytes_consumed_cons in *.
    pose proof (len_nonneg line). pose proof (bytes_consumed_nonneg f).
    destruct (generate_action logfile line p) as [[a p1]|e1] eqn:Hg.
    + apply generate_action_Ok_inv in Hg as [-> _].
      destruct (generate_actions logfile f (p + len line)) as [[acts1 p2] e2] eqn:Hr.
      intros [= <- <- <-]. destruct (IH _ _ Hr) as [Hb He].
      split; [lia|]. intros ->. destruct (He eq_refl) as [-> Hlen].
      cbn [length]. split; lia.
    + intros [= <- <- <-]. split; [lia|done].
Qed.


(** What a post leaves when it returns. *)
Lemma post_event_Done_inv event (st st' : state) :
  post_event event st = Done st' →
  ∃ w status_code,
    requests_post (world st) event = (w, Ok status_code) ∧
    st' = (if status_code =? 200 then count_success (set_world w st)
           else count_failure (set_world w st)).
Proof.
  unfold post_event. destruct (requests_post (world st) event) as [w [c|e]]; [|done].
  intros [= <-]. eauto.
Qed.

Lemma post_event_state event (st : state) :
  progress_value (state_of (post_event event st)) = progress_value st ∧
  stdout (state_of (post_event event st)) = stdout st ∧
  success_count st ≤ success_count (state_of (post_event event st)) ∧
  fail_count st ≤ fail_count (state_of (post_event event st)) ∧
  total_success st ≤ total_success (state_of (post_event event st)) ∧
  total_failed st ≤ total_failed (state_of (post_event event st)).
Proof.
  unfold post_event. destruct (requests_post (world st) event) as [w [c|e]].
  - destruct (c =? 200); cbn; repeat split; lia.
  - cbn. repeat split; lia.
Qed.

Lemma post_event_counts event (st st' : state) :
  post_event event st = Done st' →
  success_count st' + fail_count st' = success_count st + fail_count st + 1 ∧
  total_success st' + total_failed st' = total_success st + total_failed st + 1.
Proof.
  intros Hd. apply post_event_Done_inv in Hd as (w & c & _ & ->).
  destruct (c =? 200); cbn; lia.
Qed.

Lemma post_events_app logfile f1 f2 (st : state) :
  post_events logfile (f1 ++ f2) st
  = and_then (post_events logfile f1 st) (post_events logfile f2).
Proof.
  revert st. induction f1 as [|line f1 IH]; intros st; [done|].
  cbn [app post_events].
  destruct (generate_action logfile line (progress_value st)) as [[a p1]|e1]; [|done].
  destruct (post_event a (progress_update p1 st)); cbn [and_then]; [apply IH|done].
Qed.

(** The post loop: it prints nothing, never reports more than it read,
    and when it reaches the end it has reported every byte and counted
    every line once. *)
Lemma post_events_progress logfile f (st : state) :
  stdout (state_of (post_events logfile f st)) = stdout st ∧
  progress_value st ≤ progress_value (state_of (post_events logfile f st))
    ≤ progress_value st + bytes_consumed f ∧
  (∀ st', post_events logfile f st = Done st' →
     progress_value st' = progress_value st + bytes_consumed f ∧
     success_count st' + fail_count st'
       = success_count st + fail_count st + Z.of_nat (length f) ∧
     total_success st' + total_failed st'
       = total_success st + total_failed st + Z.of_nat (length f) ∧
     success_count st ≤ success_count st' ∧ fail_count st ≤ fail_count st' ∧
     total_success st ≤ total_success st' ∧ total_failed st ≤ total_failed st').
Proof.
  revert st. induction f as [|line f IH]; intros st; cbn [post_events].
  - unfold bytes_consumed. cbn. split; [done|]. split; [lia|].
    intros st' [= <-]. cbn. lia.
  - rewrite bytes_consumed_cons.
    pose proof (len_nonneg line). pose proof (bytes_consumed_nonneg f).
    destruct (generate_action logfile line (progress_value st)) as [[a p1]|e1] eqn:Hg.
    2:{ cbn. split; [done|]. split; [lia|done]. }
    apply generate_action_Ok_inv in Hg as [-> _].
    set (st0 := progress_update (progress_value st + len line) st).
    destruct (post_event_state a st0) as (Hp & Hs & M1 & M2 & M3 & M4).
    destruct (post_event a st0) as [st1|e1 st1] eqn:Hpe; cbn [and_then].
    + apply post_event_counts in Hpe as [Hc1 Ht1].
      destruct (IH st1) as (Hs1 & Hb & Hd). cbn in *.
      split; [congruence|]. split; [lia|].
      intros st' Hst'. specialize (Hd st' Hst'). cbn [length]. lia.
    + cbn in *. split; [done|]. split; [lia|done].
Qed.

Lemma print_summary_cases (st : state) :
  (color st = None ∧ print_summary st = Raised (NameError "color") st) ∨
  (∃ c, color st = Some c ∧
        print_summary st = Done (print (Imported (success_count st) (fail_count st) c) st)).
Proof. unfold print_summary. destruct (color st); eauto. Qed.




(** The post loop over good lines, with a sink that answers: it reaches
    the end. *)
Lemma post_events_answered logfile f (st : state) :
  (∀ w event, ∃ w' status_code, requests_post w event = (w', Ok status_code)) →
  Forall (line_ok json_loads logfile) f →
  ∃ st', post_events logfile f st = Done st'.
Proof.
  intros Hpost Hf. revert st.
  induction Hf as [|line f Hl _ IH]; intros st; cbn [post_events]; [eauto|].
  destruct (generate_action_ok logfile line (progress_value st) Hl) as [a ->].
  unfold post_event.
  destruct (Hpost (world (progress_update (progress_value st + len line) st)) a)
    as (w & c & ->).
  cbn [and_then]. apply IH.
Qed.


(** C9, the outcome of a post.  When the post of a record returns a
    response, the record is counted and no exception is raised: as a
    success, in the member's counters and in the run's, exactly when the
    status is 200, and as a failure exactly when it is anything else; the
    loop then goes on with the next line.  With a sink that answers every
    post, the loop over a member whose lines all decode and normalise
    reaches the end with every line counted once, whatever the statuses
    were.  (An exception of the post itself is not handled: see
    [post_event].) *)
Theorem post_sink_outcome :
  (∀ event (st : state) w status_code,
     requests_post (world st) event = (w, Ok status_code) →
     ∃ st', post_event event st = Done st' ∧
       world st' = w ∧
       (status_code = 200 ↔
          success_count st' = success_count st + 1 ∧
          total_success st' = total_success st + 1 ∧
          fail_count st' = fail_count st ∧
          total_failed st' = total_failed st) ∧
       (status_code ≠ 200 ↔
          fail_count st' = fail_count st + 1 ∧
          total_failed st' = total_failed st + 1 ∧
          success_count st' = success_count st ∧
          total_success st' = total_success st)) ∧
  (∀ logfile line f (st : state) event p w status_code,
     generate_action logfile line (progress_value st) = Ok (event, p) →
     requests_post (world st) event = (w, Ok status_code) →
     ∃ st', post_event event (progress_update p st) = Done st' ∧
            post_events logfile (line :: f) st = post_events logfile f st') ∧
  (∀ logfile f (st : state),
     (∀ w event, ∃ w' status_code, requests_post w event = (w', Ok status_code)) →
     Forall (line_ok json_loads logfile) f →
     ∃ st', ship_logstash logfile f st = Done st' ∧
       success_count st' + fail_count st' = Z.of_nat (length f) ∧
       total_success st' + total_failed st'
         = total_success st + total_failed st + Z.of_nat (length f)).
Proof.
  split; [|split].
  - intros event st w c Hr. unfold post_event. rewrite Hr.
    eexists. split; [done|].
    destruct (Z.eqb_spec c 200) as [->|Hne]; cbn;
      (split; [done|]); (split; split); intros; lia.
  - intros logfile line f st event p w c Hg Hr.
    cbn [post_events]. rewrite Hg. unfold post_event. cbn [world progress_update].
    rewrite Hr. eexists. split; done.
  - intros logfile f st Hsink Hok. unfold ship_logstash.
    destruct (post_events_answered logfile f (reset_counts st) Hsink Hok) as (st' & Hp).
    destruct (post_events_progress logfile f (reset_counts st)) as (_ & _ & Hd).
    destruct (Hd st' Hp) as (_ & Hc & Ht & _).
    exists st'. cbn in Hc, Ht. repeat split; [done|lia|lia].
Qed.


End ShippingFacts.



Lemma two_lines_ok :
  Forall (line_ok sample_loads "a.tar.gz/m.json") [good_line; good_line].
Proof.
  constructor; [|constructor; [|constructor]];
    (exists (JObject {[ "EventID" := JInt 1 ]});
     exists (JObject {[ "winlog" := JObject {[ "event_id" := JInt 1;
                                                "event_data" := JObject ∅ ]};
                        "event" := JObject {[ "code" := JInt 1 ]};
                        "log" := log_of "a.tar.gz/m.json" ]});
     split; [reflexivity|vm_compute; reflexivity]).
Defined.

Lemma sample_post_answers (w : list json) event :
  ∃ w' status_code, sample_post w event = (w', Ok status_code).
Proof. unfold sample_post. destruct (at_path _ event); eauto. Defined.




Lemma post_sink_outcome_witness :
  ∃ st',
    @ship_logstash (sample Logstash) "a.tar.gz/m.json" [good_line; good_line]
      (sample_initial Logstash) = Done st' ∧
    success_count st' + fail_count st' = 2 ∧
    total_success st' + total_failed st' = 0 + 0 + 2.
Proof.
  apply (proj2 (proj2 (@post_sink_outcome (sample Logstash)))
           "a.tar.gz/m.json" [good_line; good_line] (sample_initial Logstash)).
  - exact sample_post_answers.
  - exact two_lines_ok.
Defined.

Lemma log_overwritten_witness :
  field "log" (JObject (nxlog_sample_normalized "a.tar.gz/m.json"))
    = Some (JObject {[ "file" := JObject {[ "name" := JString "a.tar.gz/m.json" ]} ]}) ∧
  (is_Some (nxlog_with_log_sample !! "EventID") →
   ∃ ed, at_path ["winlog"; "event_data"]
           (JObject (nxlog_sample_normalized "a.tar.gz/m.json")) = Some (JObject ed) ∧
         ed !! "log" = None).
Proof.
  apply (proj1 (log_overwritten "a.tar.gz/m.json" nxlog_with_log_sample)
           (JObject (nxlog_sample_normalized "a.tar.gz/m.json"))).
  vm_compute. reflexivity.
Defined.

(** ** The normaliser, field by field *)

Lemma move_to_winlog_spec src dst (s : dict) w :
  src ≠ "winlog" →
  s !! "winlog" = Some (JObject w) →
  ∃ s' w', move_to_winlog src dst s = Ok s' ∧
    s' !! "winlog" = Some (JObject w') ∧
    w' !! dst = first_of (s !! src) (w !! dst) ∧
    (∀ k2, k2 ≠ dst → w' !! k2 = w !! k2) ∧
    s' !! src = None ∧
    (∀ k, k ≠ "winlog" → k ≠ src → s' !! k = s !! k).
Proof.
  intros Hne Hw. unfold move_to_winlog.
  destruct (Py.contains src s) eqn:Hc.
  - apply contains_true in Hc as [v Hv].
    rewrite (dict_getitem_Some _ _ _ Hv), bind_Ok.
    rewrite (setitem2_Ok _ _ _ _ _ Hw), bind_Ok.
    erewrite dict_delitem_Some by (by rewrite lookup_insert_ne).
    exists (delete src (<["winlog" := JObject (<[dst := v]> w)]> s)), (<[dst := v]> w).
    split; [done|]. rewrite Hv. cbn. repeat split.
    + rewrite lookup_delete_ne by done. by rewrite lookup_insert_eq.
    + by rewrite lookup_insert_eq.
    + intros k2 ?. by rewrite lookup_insert_ne.
    + by rewrite lookup_delete_eq.
    + intros k ? ?. by rewrite lookup_delete_ne, lookup_insert_ne.
  - apply contains_false in Hc. exists s, w. rewrite Hc. by cbn.
Qed.

Lemma fix_channel_spec (s : dict) w :
  s !! "winlog" = Some (JObject w) →
  ∃ s' w', fix_channel s = Ok s' ∧
    s' !! "winlog" = Some (JObject w') ∧
    w' !! "channel" = fixed_case (w !! "channel") ∧
    (∀ k2, k2 ≠ "channel" → w' !! k2 = w !! k2) ∧
    (∀ k, k ≠ "winlog" → s' !! k = s !! k).
Proof.
  intros Hw. remember (fixed_case (w !! "channel")) as fc eqn:Hfc.
  unfold fix_channel, Py.getitem2.
  rewrite (dict_getitem_Some _ _ _ Hw), bind_Ok. cbn. unfold Py.dict_getitem.
  unfold fixed_case in Hfc.
  destruct (w !! "channel") as [c|] eqn:Hc; cbn.
  2:{ exists s, w. by subst fc. }
  destruct (Py.eq_str c "security") eqn:He; cbn.
  - rewrite (setitem2_Ok _ _ _ _ _ Hw). cbn.
    exists (<["winlog" := JObject (<["channel" := JString "Security"]> w)]> s),
           (<["channel" := JString "Security"]> w).
    split; [done|]. subst fc. repeat split.
    + by rewrite lookup_insert_eq.
    + by rewrite lookup_insert_eq.
    + intros k2 ?. by rewrite lookup_insert_ne.
    + intros k ?. by rewrite lookup_insert_ne.
  - exists s, w. by subst fc.
Qed.

Lemma set_event_code_exact (s : dict) w :
  s !! "winlog" = Some (JObject w) →
  set_event_code s =
    match w !! "event_id" with
    | None => Raise (KeyError "event_id")
    | Some eid =>
        match s !! "event" with
        | None => Ok (<["event" := JObject {[ "code" := eid ]}]> s)
        | Some (JObject e) => Ok (<["event" := JObject (<["code" := eid]> e)]> s)
        | Some _ => Raise TypeError
        end
    end.
Proof.
  intros Hw. unfold set_event_code, Py.getitem2.
  rewrite (dict_getitem_Some _ _ _ Hw), bind_Ok. cbn. unfold Py.dict_getitem.
  destruct (w !! "event_id") as [eid|]; cbn; [|done].
  unfold Py.dict_setdefault, Py.setitem2, Py.dict_getitem.
  destruct (s !! "event") as [x|] eqn:He.
  - rewrite He. cbn. by destruct x.
  - rewrite lookup_insert_eq. cbn. by rewrite insert_insert_eq.
Qed.

Lemma start_state logfile (d : dict) :
  mapping_or_absent "winlog" d →
  let s0 := Py.dict_setdefault (<["log" := log_of logfile]> d) "winlog" (JObject ∅) in
  s0 !! "winlog" = Some (JObject (mapping_at "winlog" d)) ∧
  s0 !! "log" = Some (log_of logfile) ∧
  (∀ k, k ≠ "winlog" → k ≠ "log" → s0 !! k = d !! k).
Proof.
  intros Hw. cbv zeta. split; [|split].
  - unfold mapping_at.
    destruct (start_winlog logfile d) as [[Hn ->]|(x & Hx & ->)].
    + by rewrite Hn.
    + destruct Hw as [?|[w Hw]]; [congruence|]. by rewrite Hw in *; simplify_eq.
  - by rewrite setdefault_lookup_ne, lookup_insert_eq.
  - intros. by apply start_lookup.
Qed.

(** [winlog] present and not a dictionary: every path through lines 94 to
    146 subscripts it, and [TypeError] is not caught. *)
Lemma normalize_dict_bad_winlog logfile (d : dict) x :
  d !! "winlog" = Some x →
  (∀ w, x ≠ JObject w) →
  normalize_dict logfile d = Raise TypeError.
Proof.
  intros Hx Hbad. unfold normalize_dict, relocate.
  set (s0 := Py.dict_setdefault _ _ _).
  assert (Hw0 : s0 !! "winlog" = Some x).
  { subst s0. destruct (start_winlog logfile d) as [[? _]|(y & ? & ->)]; congruence. }
  clearbody s0.
  assert (Hset : ∀ (s : dict) k v, s !! "winlog" = Some x →
            Py.setitem2 s "winlog" k v = Raise TypeError).
  { intros s k v Hs. unfold Py.setitem2.
    rewrite (dict_getitem_Some _ _ _ Hs), bind_Ok.
    destruct x; try done. by destruct (Hbad d0). }
  destruct (s0 !! "EventID") as [v|] eqn:He.
  { by rewrite (move_nxlog_TypeError _ _ _ He Hw0 Hbad). }
  unfold move_nxlog. rewrite (proj2 (contains_false _ _) He), bind_Ok.
  unfold move_event_data.
  destruct (Py.contains "event_data" s0) eqn:Hc1.
  { apply contains_true in Hc1 as [v Hv].
    by rewrite (dict_getitem_Some _ _ _ Hv), bind_Ok, Hset. }
  rewrite bind_Ok. unfold move_log_name.
  destruct (Py.contains "log_name" s0) eqn:Hc2.
  { apply contains_true in Hc2 as [v Hv].
    by rewrite (dict_getitem_Some _ _ _ Hv), bind_Ok, Hset. }
  rewrite bind_Ok. unfold fix_channel, Py.getitem2.
  rewrite (dict_getitem_Some _ _ _ Hw0), bind_Ok.
  destruct x; try done. by destruct (Hbad d0).
Qed.

(** Lines 90 to 150 on a record without [EventID] whose [winlog] is absent
    or a dictionary: they run through, and this is the state line 152
    finds. *)
Lemma plain_before_event_code logfile (d : dict) :
  d !! "EventID" = None →
  mapping_or_absent "winlog" d →
  ∃ s5 w5,
    (relocate logfile d ≫= λ s, fix_channel s ≫= move_event_id) = Ok s5 ∧
    s5 !! "winlog" = Some (JObject w5) ∧
    w5 !! "event_id" = plain_event_id d ∧
    w5 !! "event_data"
      = first_of (d !! "event_data") (mapping_at "winlog" d !! "event_data") ∧
    w5 !! "channel"
      = fixed_case (first_of (d !! "log_name") (mapping_at "winlog" d !! "channel")) ∧
    (∀ k2, k2 ∉ ["event_id"; "event_data"; "channel"] →
           w5 !! k2 = mapping_at "winlog" d !! k2) ∧
    s5 !! "log" = Some (log_of logfile) ∧
    s5 !! "event_data" = None ∧ s5 !! "log_name" = None ∧ s5 !! "event_id" = None ∧
    (∀ k, k ∉ ["winlog"; "log"; "event_data"; "log_name"; "event_id"] →
          s5 !! k = d !! k).
Proof.
  intros He Hw. unfold relocate, plain_event_id.
  destruct (start_state logfile d Hw) as (W0 & L0 & K0).
  set (w0 := mapping_at "winlog" d) in *.
  set (s0 := Py.dict_setdefault _ _ _) in *. clearbody s0 w0.
  unfold move_nxlog.
  rewrite (proj2 (contains_false "EventID" s0)), bind_Ok by (by rewrite K0).
  rewrite move_event_data_shape, move_log_name_shape, move_event_id_shape.
  destruct (move_to_winlog_spec "event_data" "event_data" s0 w0)
    as (s2 & w2 & -> & W2 & D2 & E2 & A2 & K2); [done..|].
  rewrite bind_Ok.
  destruct (move_to_winlog_spec "log_name" "channel" s2 w2)
    as (s3 & w3 & -> & W3 & D3 & E3 & A3 & K3); [done..|].
  rewrite bind_Ok.
  destruct (fix_channel_spec s3 w3 W3) as (s4 & w4 & -> & W4 & D4 & E4 & K4).
  rewrite bind_Ok.
  destruct (move_to_winlog_spec "event_id" "event_id" s4 w4)
    as (s5 & w5 & -> & W5 & D5 & E5 & A5 & K5); [done..|].
  exists s5, w5. split; [done|]. split; [done|].
  repeat split.
  - rewrite D5, K4, K3, K2, K0, E4, E3, E2 by done. done.
  - rewrite E5, E4, E3, D2, K0 by done. done.
  - rewrite E5, D4, D3, K2, K0, E2 by done. done.
  - intros k2 Hk2. rewrite E5, E4, E3, E2 by keys. done.
  - by rewrite K5, K4, K3, K2.
  - by rewrite K5, K4, K3.
  - by rewrite K5, K4.
  - done.
  - intros k Hk. rewrite K5, K4, K3, K2, K0 by keys. done.
Qed.

Lemma normalize_dict_split logfile (d : dict) :
  normalize_dict logfile d
  = (relocate logfile d ≫= λ s, fix_channel s ≫= move_event_id) ≫= set_event_code.
Proof.
  unfold normalize_dict. destruct (relocate logfile d) as [s|]; [|done]. cbn.
  destruct (fix_channel s) as [s'|]; [|done]. cbn.
  by destruct (move_event_id s').
Qed.

Lemma mapping_at_Some k (d : dict) e :
  d !! k = Some (JObject e) → mapping_at k d = e.
Proof. intros H. unfold mapping_at. by rewrite H. Qed.

Lemma mapping_at_None k (d : dict) :
  d !! k = None → mapping_at k d = ∅.
Proof. intros H. unfold mapping_at. by rewrite H. Qed.

(** X1.  A record without [EventID] (the Winlogbeat shapes), whose
    [winlog] and [event] are absent or dictionaries and which has an event
    id at top level or inside [winlog], is normalised, and the result is
    known field by field: the top-level [event_id], [event_data] and
    [log_name] take precedence over what [winlog] already held and leave
    the top level; the channel has its case fixed; the other fields of
    [winlog] and of [event], and every other top-level key, are kept. *)
Theorem plain_record_normalized logfile (d : dict) v :
  d !! "EventID" = None →
  mapping_or_absent "winlog" d →
  mapping_or_absent "event" d →
  plain_event_id d = Some v →
  ∃ out w,
    normalize logfile (JObject d) = Ok (JObject out) ∧
    out !! "winlog" = Some (JObject w) ∧
    w !! "event_id" = Some v ∧
    w !! "event_data"
      = first_of (d !! "event_data") (mapping_at "winlog" d !! "event_data") ∧
    w !! "channel"
      = fixed_case (first_of (d !! "log_name") (mapping_at "winlog" d !! "channel")) ∧
    (∀ k2, k2 ∉ ["event_id"; "event_data"; "channel"] →
           w !! k2 = mapping_at "winlog" d !! k2) ∧
    out !! "event" = Some (JObject (<["code" := v]> (mapping_at "event" d))) ∧
    out !! "log" = Some (log_of logfile) ∧
    out !! "event_data" = None ∧ out !! "log_name" = None ∧ out !! "event_id" = None ∧
    (∀ k, k ∉ ["winlog"; "log"; "event"; "event_data"; "log_name"; "event_id"] →
          out !! k = d !! k).
Proof.
  intros He Hw Hev Hid.
  destruct (plain_before_event_code logfile d He Hw)
    as (s5 & w5 & H5 & W5 & I5 & D5 & C5 & E5 & L5 & A1 & A2 & A3 & K5).
  assert (Hev5 : s5 !! "event" = d !! "event") by (apply K5; keys).
  assert (∃ out, set_event_code s5 = Ok out ∧
            out = <["event" := JObject (<["code" := v]> (mapping_at "event" d))]> s5)
    as (out & Hout & ->).
  { rewrite (set_event_code_exact _ _ W5), I5, Hid, Hev5.
    destruct Hev as [Hn|[e Hs]].
    - rewrite Hn, (mapping_at_None _ _ Hn). eauto.
    - rewrite Hs, (mapping_at_Some _ _ _ Hs). eauto. }
  eexists _, w5. split.
  { cbn. by rewrite normalize_dict_split, H5, bind_Ok, Hout. }
  rewrite lookup_insert_eq, !lookup_insert_ne by done.
  rewrite I5, Hid. repeat split; try done.
  intros k Hk. rewrite lookup_insert_ne by keys. apply K5. keys.
Qed.

Lemma plain_record_normalized_witness :
  ∃ out w,
    normalize "a.tar.gz/m.json" (JObject winlogbeat6_sample) = Ok (JObject out) ∧
    out !! "winlog" = Some (JObject w) ∧
    w !! "event_id" = Some (JInt 4624) ∧
    w !! "event_data"
      = first_of (winlogbeat6_sample !! "event_data")
          (mapping_at "winlog" winlogbeat6_sample !! "event_data") ∧
    w !! "channel"
      = fixed_case (first_of (winlogbeat6_sample !! "log_name")
                      (mapping_at "winlog" winlogbeat6_sample !! "channel")) ∧
    (∀ k2, k2 ∉ ["event_id"; "event_data"; "channel"] →
           w !! k2 = mapping_at "winlog" winlogbeat6_sample !! k2) ∧
    out !! "event"
      = Some (JObject (<["code" := JInt 4624]> (mapping_at "event" winlogbeat6_sample))) ∧
    out !! "log" = Some (log_of "a.tar.gz/m.json") ∧
    out !! "event_data" = None ∧ out !! "log_name" = None ∧ out !! "event_id" = None ∧
    (∀ k, k ∉ ["winlog"; "log"; "event"; "event_data"; "log_name"; "event_id"] →
          out !! k = winlogbeat6_sample !! k).
Proof.
  apply (plain_record_normalized "a.tar.gz/m.json" winlogbeat6_sample (JInt 4624)).
  - reflexivity.
  - left. reflexivity.
  - left. reflexivity.
  - reflexivity.
Defined.

(** X2.  A record without [EventID] that has an event id but whose
    [event] is present and not a dictionary: line 152 raises [TypeError]
    when it stores [code] into it. *)
Theorem plain_record_bad_event logfile (d : dict) v x :
  d !! "EventID" = None →
  mapping_or_absent "winlog" d →
  plain_event_id d = Some v →
  d !! "event" = Some x →
  (∀ e, x ≠ JObject e) →
  normalize logfile (JObject d) = Raise TypeError.
Proof.
  intros He Hw Hid Hx Hbad.
  destruct (plain_before_event_code logfile d He Hw)
    as (s5 & w5 & H5 & W5 & I5 & _ & _ & _ & _ & _ & _ & _ & K5).
  assert (Hev5 : s5 !! "event" = d !! "event") by (apply K5; keys).
  cbn. rewrite normalize_dict_split, H5, bind_Ok.
  rewrite (set_event_code_exact _ _ W5), I5, Hid, Hev5, Hx.
  destruct x; try done. by destruct (Hbad d0).
Qed.

Lemma plain_record_bad_event_witness :
  normalize "a.tar.gz/m.json"
    (JObject {[ "event_id" := JInt 1; "event" := JString "logon" ]})
  = Raise TypeError.
Proof.
  apply (plain_record_bad_event "a.tar.gz/m.json" _ (JInt 1) (JString "logon")).
  - reflexivity.
  - left. reflexivity.
  - reflexivity.
  - reflexivity.
  - intros e. discriminate.
Defined.

(** X3.  Whatever else a record holds, a [winlog] that is present and not
    a dictionary ends the normaliser with [TypeError]. *)
Theorem bad_winlog_raises_TypeError logfile (d : dict) x :
  d !! "winlog" = Some x →
  (∀ w, x ≠ JObject w) →
  normalize logfile (JObject d) = Raise TypeError.
Proof.
  intros Hx Hbad. cbn. by rewrite (normalize_dict_bad_winlog _ _ _ Hx Hbad).
Qed.

Lemma bad_winlog_raises_TypeError_witness :
  normalize "a.tar.gz/m.json"
    (JObject {[ "EventID" := JInt 1; "winlog" := JArray [] ]})
  = Raise TypeError.
Proof.
  apply (bad_winlog_raises_TypeError "a.tar.gz/m.json" _ (JArray [])).
  - reflexivity.
  - intros w. discriminate.
Defined.

(** X4.  An nxlog record (one with [EventID]) whose [winlog] is absent or a
    dictionary is normalised, and the result is known field by field:
    [EventID] is the event id and the code; [Hostname] and [Channel] go to
    [winlog.computer_name] and [winlog.channel] (case fixed); [type] and
    [host] are dropped; every other key outside [winlog], [log],
    [@timestamp], [@version] goes to a fresh [winlog.event_data]; [event]
    is exactly [{code}]; only the two [@] keys stay at top level. *)
Theorem nxlog_record_normalized logfile (d : dict) v :
  d !! "EventID" = Some v →
  mapping_or_absent "winlog" d →
  ∃ out w ed,
    normalize logfile (JObject d) = Ok (JObject out) ∧
    out !! "winlog" = Some (JObject w) ∧
    w !! "event_id" = Some v ∧
    w !! "event_data" = Some (JObject ed) ∧
    (∀ k, ed !! k =
       if bool_decide (k ∈ ["winlog"; "log"; "Channel"; "Hostname"; "@timestamp";
                            "@version"; "EventID"; "type"; "host"])
       then None else d !! k) ∧
    w !! "computer_name"
      = first_of (d !! "Hostname") (mapping_at "winlog" d !! "computer_name") ∧
    w !! "channel"
      = fixed_case (first_of (d !! "Channel") (mapping_at "winlog" d !! "channel")) ∧
    (∀ k2, k2 ∉ ["event_id"; "event_data"; "computer_name"; "channel"] →
           w !! k2 = mapping_at "winlog" d !! k2) ∧
    out !! "event" = Some (JObject {[ "code" := v ]}) ∧
    out !! "log" = Some (log_of logfile) ∧
    (∀ k, k ∉ ["winlog"; "log"; "event"] →
          out !! k = if bool_decide (k ∈ ["@timestamp"; "@version"])
                     then d !! k else None).
Proof.
  intros Hv Hw. cbn. unfold normalize_dict, relocate.
  destruct (start_state logfile d Hw) as (W0 & L0 & K0).
  set (w0 := mapping_at "winlog" d) in *.
  set (s0 := Py.dict_setdefault _ _ _) in *. clearbody s0 w0.
  assert (Hv0 : s0 !! "EventID" = Some v) by (by rewrite K0).
  destruct (move_nxlog_moved _ _ _ Hv0 W0) as (s1 & -> & W1 & K1).
  rewrite bind_Ok. unfold move_event_data, move_log_name.
  rewrite (proj2 (contains_false "event_data" s1)), bind_Ok by (rewrite K1 by done; cases).
  rewrite (proj2 (contains_false "log_name" s1)), bind_Ok by (rewrite K1 by done; cases).
  set (ed := event_data_of _) in W1.
  set (w3 := match s0 !! "Channel" with Some _ => _ | None => _ end) in W1.
  assert (I3 : w3 !! "event_id" = Some v).
  { subst w3. destruct (s0 !! "Channel"), (s0 !! "Hostname"); lookups; cases. }
  assert (D3 : w3 !! "event_data" = Some (JObject ed)).
  { subst w3. destruct (s0 !! "Channel"), (s0 !! "Hostname"); lookups; cases. }
  assert (N3 : w3 !! "computer_name" = first_of (d !! "Hostname") (w0 !! "computer_name")).
  { subst w3. rewrite <- (K0 "Hostname") by done.
    destruct (s0 !! "Channel"), (s0 !! "Hostname"); lookups; cases. }
  assert (C3 : w3 !! "channel" = first_of (d !! "Channel") (w0 !! "channel")).
  { subst w3. rewrite <- (K0 "Channel") by done.
    destruct (s0 !! "Channel"), (s0 !! "Hostname"); lookups; cases. }
  assert (E3 : ∀ k2, k2 ∉ ["event_id"; "event_data"; "computer_name"; "channel"] →
                w3 !! k2 = w0 !! k2).
  { intros k2 Hk2. subst w3.
    assert (k2 ≠ "event_id" ∧ k2 ≠ "event_data" ∧ k2 ≠ "computer_name" ∧ k2 ≠ "channel")
      as (? & ? & ? & ?) by (repeat split; intros ->; apply Hk2; keys).
    destruct (s0 !! "Channel"), (s0 !! "Hostname");
      by rewrite ?lookup_insert_ne by done. }
  assert (Hed : ∀ k, ed !! k =
       if bool_decide (k ∈ ["winlog"; "log"; "Channel"; "Hostname"; "@timestamp";
                            "@version"; "EventID"; "type"; "host"])
       then None else d !! k).
  { intros k. subst ed. lookups.
    destruct (decide (k = "winlog")) as [->|Hn1]; [cases|].
    destruct (decide (k = "log")) as [->|Hn2]; [cases|].
    rewrite K0 by done. clear -Hn1 Hn2. cases; keys. }
  clearbody w3 ed.
  destruct (fix_channel_spec s1 w3 W1) as (s4 & w4 & -> & W4 & C4 & E4 & K4).
  rewrite bind_Ok. unfold move_event_id.
  rewrite (proj2 (contains_false "event_id" s4)), bind_Ok
    by (rewrite K4, K1 by done; cases).
  rewrite (set_event_code_exact _ _ W4), E4, I3 by done.
  assert (s4 !! "event" = None) as -> by (rewrite K4, K1 by done; cases).
  cbn. eexists _, w4, ed. split; [done|].
  rewrite lookup_insert_eq, !lookup_insert_ne by done.
  rewrite C4, !E4, I3, D3, N3, C3 by done.
  rewrite (K4 "log"), (K1 "log") by done. literal_keys.
  repeat split; try done.
  - intros k2 Hk2. rewrite E4; [by apply E3|]. intros ->. apply Hk2. keys.
  - intros k Hk.
    assert (k ≠ "winlog" ∧ k ≠ "log" ∧ k ≠ "event")
      as (Hn1 & Hn2 & Hn3) by (repeat split; intros ->; apply Hk; keys).
    rewrite lookup_insert_ne, K4, K1 by done.
    case_bool_decide as M1; case_bool_decide as M2; try done.
    + by apply K0.
    + exfalso. apply M2. clear -M1 Hn2. keys.
    + exfalso. apply M1. clear -M2. keys.
Qed.

Lemma nxlog_record_normalized_witness :
  ∃ out w ed,
    normalize "a.tar.gz/m.json" (JObject nxlog_sample) = Ok (JObject out) ∧
    out !! "winlog" = Some (JObject w) ∧
    w !! "event_id" = Some (JInt 7) ∧
    w !! "event_data" = Some (JObject ed) ∧
    (∀ k, ed !! k =
       if bool_decide (k ∈ ["winlog"; "log"; "Channel"; "Hostname"; "@timestamp";
                            "@version"; "EventID"; "type"; "host"])
       then None else nxlog_sample !! k) ∧
    w !! "computer_name"
      = first_of (nxlog_sample !! "Hostname")
          (mapping_at "winlog" nxlog_sample !! "computer_name") ∧
    w !! "channel"
      = fixed_case (first_of (nxlog_sample !! "Channel")
                      (mapping_at "winlog" nxlog_sample !! "channel")) ∧
    (∀ k2, k2 ∉ ["event_id"; "event_data"; "computer_name"; "channel"] →
           w !! k2 = mapping_at "winlog" nxlog_sample !! k2) ∧
    out !! "event" = Some (JObject {[ "code" := JInt 7 ]}) ∧
    out !! "log" = Some (log_of "a.tar.gz/m.json") ∧
    (∀ k, k ∉ ["winlog"; "log"; "event"] →
          out !! k = if bool_decide (k ∈ ["@timestamp"; "@version"])
                     then nxlog_sample !! k else None).
Proof.
  apply (nxlog_record_normalized "a.tar.gz/m.json" nxlog_sample (JInt 7)).
  - reflexivity.
  - left. reflexivity.
Defined.

(** What the normaliser returns on a record without [EventID] whose
    [winlog] is absent or a dictionary, in terms of the state [s5] that
    line 152 finds. *)
Lemma normalize_dict_plain_result logfile (d : dict) :
  d !! "EventID" = None →
  mapping_or_absent "winlog" d →
  ∃ s5,
    normalize_dict logfile d =
      match plain_event_id d with
      | None => Raise (KeyError "event_id")
      | Some v =>
          match d !! "event" with
          | None => Ok (<["event" := JObject {[ "code" := v ]}]> s5)
          | Some (JObject e) => Ok (<["event" := JObject (<["code" := v]> e)]> s5)
          | Some _ => Raise TypeError
          end
      end.
Proof.
  intros He Hw.
  destruct (plain_before_event_code logfile d He Hw)
    as (s5 & w5 & H5 & W5 & I5 & _ & _ & _ & _ & _ & _ & _ & K5).
  assert (Hev5 : s5 !! "event" = d !! "event") by (apply K5; keys).
  exists s5. rewrite normalize_dict_split, H5, bind_Ok.
  by rewrite (set_event_code_exact _ _ W5), I5, Hev5.
Qed.

(** C6, channel case: let [s] be the record after the relocation rules
    (lines 90 to 140).  If [winlog.channel] of [s] is the string
    [security], line 144 runs and rewrites it to [Security], touching
    nothing else; if [winlog] holds any other channel, or none, lines 142
    to 146 return the record as it was.  The later steps leave the channel
    alone, so the same holds of every normalised record; and the record is
    normalised, with that channel, whenever [s] holds an event id (at top
    level or in [winlog]) and its [event] is absent or a dictionary. *)
Theorem channel_case_normalized logfile (d s : dict) :
  relocate logfile d = Ok s →
  (sub "winlog" "channel" s = Some (JString "security") →
   ∃ s', fix_channel s = Ok s' ∧
     sub "winlog" "channel" s' = Some (JString "Security") ∧
     (∀ k2, k2 ≠ "channel" → sub "winlog" k2 s' = sub "winlog" k2 s) ∧
     (∀ k, k ≠ "winlog" → s' !! k = s !! k)) ∧
  (∀ w, s !! "winlog" = Some (JObject w) →
     w !! "channel" ≠ Some (JString "security") →
     fix_channel s = Ok s) ∧
  (∀ out, normalize_dict logfile d = Ok out →
     (sub "winlog" "channel" s = Some (JString "security") →
      sub "winlog" "channel" out = Some (JString "Security")) ∧
     (sub "winlog" "channel" s ≠ Some (JString "security") →
      sub "winlog" "channel" out = sub "winlog" "channel" s)) ∧
  (∀ w, s !! "winlog" = Some (JObject w) →
     is_Some (s !! "event_id") ∨ is_Some (w !! "event_id") →
     mapping_or_absent "event" s →
     ∃ out, normalize_dict logfile d = Ok out ∧
       (w !! "channel" = Some (JString "security") →
        sub "winlog" "channel" out = Some (JString "Security")) ∧
       (w !! "channel" ≠ Some (JString "security") →
        sub "winlog" "channel" out = w !! "channel")).
Proof.
  intros Hs.
  assert (Hall : ∀ out, normalize_dict logfile d = Ok out →
     (sub "winlog" "channel" s = Some (JString "security") →
      sub "winlog" "channel" out = Some (JString "Security")) ∧
     (sub "winlog" "channel" s ≠ Some (JString "security") →
      sub "winlog" "channel" out = sub "winlog" "channel" s)).
  { intros out H. unfold normalize_dict in H. rewrite Hs, bind_Ok in H.
    apply bind_Ok_inv in H as (s4 & H4 & H).
    apply bind_Ok_inv in H as (s5 & H5 & H6).
    apply fix_channel_props in H4 as (_ & _ & C1 & C2 & _).
    rewrite move_event_id_shape in H5.
    apply move_to_winlog_props in H5 as (_ & _ & W5 & _); [|done].
    apply set_event_code_props in H6 as (K6 & _).
    rewrite (sub_same s5 out "winlog") by (by apply K6).
    rewrite W5 by done. split; [done|].
    intros Hn. by rewrite (C2 Hn). }
  split; [|split; [|split; [exact Hall|]]].
  - intros Hc. unfold sub in Hc.
    destruct (s !! "winlog") as [[| | | | | |w]|] eqn:Hw; try done.
    destruct (fix_channel_spec s w Hw) as (s' & w' & H' & Hw' & Hc' & Hk2 & Hk).
    exists s'. split; [done|]. cbn in Hc. split; [|split; [|done]].
    + rewrite (sub_Some _ _ _ _ Hw'), Hc', Hc. done.
    + intros k2 ?. rewrite (sub_Some _ _ _ _ Hw'), (sub_Some _ _ _ _ Hw).
      by apply Hk2.
  - intros w Hw Hc.
    destruct (fix_channel_spec s w Hw) as (s' & w' & H' & _).
    pose proof H' as Hp.
    apply fix_channel_props in Hp as (_ & _ & _ & C2 & _).
    rewrite H'. f_equal. apply C2. by rewrite (sub_Some _ _ _ _ Hw).
  - intros w Hw Hid Hev.
    destruct (fix_channel_spec s w Hw) as (s1 & w1 & H1 & Hw1 & _ & Hk2 & Hk).
    destruct (move_to_winlog_spec "event_id" "event_id" s1 w1 ltac:(done) Hw1)
      as (s2 & w2 & H2 & Hw2 & Hi2 & _ & _ & Hk').
    assert (∃ eid, w2 !! "event_id" = Some eid) as [eid Heid].
    { rewrite Hi2, Hk, Hk2 by done.
      destruct Hid as [[v ->]|[v Hv]]; [by exists v|].
      destruct (s !! "event_id"); cbn; eauto. }
    assert (He2 : s2 !! "event" = s !! "event").
    { rewrite Hk', Hk by done. done. }
    destruct (set_event_code_total s2 w2 eid Hw2 Heid) as [out Hout].
    { rewrite He2. exact Hev. }
    assert (Hn : normalize_dict logfile d = Ok out).
    { unfold normalize_dict. rewrite Hs, bind_Ok, H1, bind_Ok.
      rewrite move_event_id_shape, H2, bind_Ok. exact Hout. }
    exists out. split; [done|].
    destruct (Hall out Hn) as [A B].
    rewrite (sub_Some _ _ _ _ Hw) in A, B. by split.
Qed.

Lemma channel_case_normalized_witness :
  (∃ s', fix_channel (winlogbeat6_relocated "a.tar.gz/m.json") = Ok s' ∧
         sub "winlog" "channel" s' = Some (JString "Security")) ∧
  (∃ out, normalize_dict "a.tar.gz/m.json" winlogbeat6_sample = Ok out ∧
          sub "winlog" "channel" out = Some (JString "Security")).
Proof.
  destruct (channel_case_normalized "a.tar.gz/m.json" winlogbeat6_sample
              (winlogbeat6_relocated "a.tar.gz/m.json")) as (A & _ & _ & D).
  { vm_compute. reflexivity. }
  split.
  - destruct A as (s' & H1 & H2 & _); [vm_compute; reflexivity|]. by exists s'.
  - destruct (D {[ "channel" := JString "security";
                   "event_data" := JObject {[ "TargetUserName" := JString "alice" ]} ]})
      as (out & Hn & Hc & _).
    + vm_compute. reflexivity.
    + left. exists (JInt 4624). vm_compute. reflexivity.
    + left. vm_compute. reflexivity.
    + exists out. split; [done|]. apply Hc. vm_compute. reflexivity.
Defined.

Lemma mapping_or_absent_cases k (d : dict) :
  mapping_or_absent k d ∨ ∃ x, d !! k = Some x ∧ ∀ w, x ≠ JObject w.
Proof.
  unfold mapping_or_absent.
  destruct (d !! k) as [[| | | | | |w]|]; eauto; right; eexists; split; done.
Qed.

(** X5.  Which records the normaliser accepts: exactly those whose
    [winlog] is absent or a dictionary and which either have [EventID], or
    have an event id (top-level [event_id] or [winlog.event_id]) together
    with an [event] that is absent or a dictionary. *)
Theorem normalize_succeeds_iff logfile (d : dict) :
  (∃ out, normalize logfile (JObject d) = Ok out) ↔
  mapping_or_absent "winlog" d ∧
  (is_Some (d !! "EventID") ∨
   (is_Some (plain_event_id d) ∧ mapping_or_absent "event" d)).
Proof.
  split.
  - intros [out H]. apply normalize_Ok_inv in H as (d' & o & [= <-] & -> & H).
    destruct (mapping_or_absent_cases "winlog" d) as [Hw|(x & Hx & Hbad)];
      [|by rewrite (normalize_dict_bad_winlog _ _ _ Hx Hbad) in H].
    split; [done|].
    destruct (d !! "EventID") as [v|] eqn:He; [by left|]. right.
    destruct (normalize_dict_plain_result logfile d He Hw) as [s5 Hr].
    rewrite Hr in H.
    destruct (plain_event_id d) as [v|]; [|done]. split; [done|].
    unfold mapping_or_absent.
    destruct (d !! "event") as [[| | | | | |e]|]; try done; eauto.
  - intros [Hw [[v Hv]|[[v Hid] Hev]]].
    + destruct (normalize_dict_nxlog logfile d v Hv Hw) as (out & _ & H & _).
      exists (JObject out). cbn. by rewrite H.
    + destruct (d !! "EventID") as [v'|] eqn:He.
      { destruct (normalize_dict_nxlog logfile d v' He Hw) as (out & _ & H & _).
        exists (JObject out). cbn. by rewrite H. }
      destruct (normalize_dict_plain_result logfile d He Hw) as [s5 Hr].
      cbn. rewrite Hr, Hid.
      destruct Hev as [->|[e ->]]; eauto.
Qed.

Lemma normalize_dict_Raise_inv logfile (d : dict) e :
  normalize_dict logfile d = Raise e →
  e = TypeError ∨
  (e = KeyError "event_id" ∧ d !! "EventID" = None ∧ plain_event_id d = None).
Proof.
  intros Hd.
  destruct (mapping_or_absent_cases "winlog" d) as [Hw|(x & Hx & Hbad)].
  2:{ rewrite (normalize_dict_bad_winlog _ _ _ Hx Hbad) in Hd.
      injection Hd as <-. by left. }
  destruct (d !! "EventID") as [v|] eqn:He.
  { destruct (normalize_dict_nxlog logfile d v He Hw) as (out & _ & H & _). congruence. }
  destruct (normalize_dict_plain_result logfile d He Hw) as [s5 Hr].
  rewrite Hr in Hd.
  destruct (plain_event_id d) as [v|] eqn:Hid.
  - destruct (d !! "event") as [[| | | | | |ev]|]; try done;
      injection Hd as <-; by left.
  - injection Hd as <-. by right.
Qed.

(** X6.  The only exceptions that leave the normaliser are [TypeError] and
    [KeyError: 'event_id']; the latter exactly on a record without
    [EventID] and without an event id.  Every other [KeyError] of lines 94
    to 146 is caught or cannot arise. *)
Theorem normalize_exceptions logfile raw e :
  normalize logfile raw = Raise e →
  e = TypeError ∨
  (e = KeyError "event_id" ∧
   ∃ d, raw = JObject d ∧ d !! "EventID" = None ∧ plain_event_id d = None).
Proof.
  destruct raw as [| | | | | |d]; cbn; try (intros [= <-]; by left).
  intros H.
  assert (Hd : normalize_dict logfile d = Raise e)
    by (destruct (normalize_dict logfile d); [done|by injection H as ->]).
  apply normalize_dict_Raise_inv in Hd as [->|(-> & He & Hid)]; [by left|].
  right. split; [done|]. by exists d.
Qed.

Lemma normalize_exceptions_witness :
  KeyError "event_id" = TypeError ∨
  (KeyError "event_id" = KeyError "event_id" ∧
   ∃ d, JObject no_id_sample = JObject d ∧ d !! "EventID" = None ∧
        plain_event_id d = None).
Proof.
  apply (normalize_exceptions "a.tar.gz/m.json" (JObject no_id_sample)).
  vm_compute. reflexivity.
Defined.

(** X7.  What a normalised record never holds: none of the legacy keys
    [EventID], [event_data], [log_name], [event_id] is left at top level,
    and [winlog.channel] is never the small-letter [security]. *)
Theorem normalized_has_no_legacy_keys logfile raw out :
  normalize logfile raw = Ok out →
  field "EventID" out = None ∧
  field "event_data" out = None ∧
  field "log_name" out = None ∧
  field "event_id" out = None ∧
  at_path ["winlog"; "channel"] out ≠ Some (JString "security").
Proof.
  intros H. apply normalize_Ok_inv in H as (d & o & -> & -> & H).
  apply normalize_dict_canonical in H
    as (_ & A1 & A2 & A3 & A4 & w & e & eid & Hw & _ & Hc & _).
  cbn. rewrite Hw. cbn. repeat split; try done.
  by destruct (w !! "channel").
Qed.

Lemma normalized_has_no_legacy_keys_witness :
  field "EventID" (JObject (nxlog_sample_normalized "a.tar.gz/m.json")) = None ∧
  field "event_data" (JObject (nxlog_sample_normalized "a.tar.gz/m.json")) = None ∧
  field "log_name" (JObject (nxlog_sample_normalized "a.tar.gz/m.json")) = None ∧
  field "event_id" (JObject (nxlog_sample_normalized "a.tar.gz/m.json")) = None ∧
  at_path ["winlog"; "channel"] (JObject (nxlog_sample_normalized "a.tar.gz/m.json"))
    ≠ Some (JString "security").
Proof.
  apply (normalized_has_no_legacy_keys "a.tar.gz/m.json" (JObject nxlog_sample)).
  vm_compute. reflexivity.
Defined.

(** ** The shipping loop, as a whole *)

Lemma foldr_add_app (l1 l2 : list Z) :
  foldr Z.add 0 (l1 ++ l2) = foldr Z.add 0 l1 + foldr Z.add 0 l2.
Proof. induction l1 as [|x l1 IH]; cbn; lia. Qed.

Lemma total_size_cons a paths :
  total_size (a :: paths) = foldr Z.add 0 (member_sizes a) + total_size paths.
Proof. unfold total_size. cbn. apply foldr_add_app. Qed.

Lemma member_sizes_cons m ms p :
  member_sizes {| path := p; getmembers := m :: ms |}
  = ((if tarfile.isfile m then [tarfile.size m] else [])
     ++ member_sizes {| path := p; getmembers := ms |})%list.
Proof.
  unfold member_sizes. cbn [getmembers]. rewrite filter_cons.
  destruct (tarfile.isfile m); by case_decide.
Qed.

Section RunFacts.

Context `{External}.

(** One member: the progress moves by at most its size, and by all of it
    when the member is imported to the end. *)
Lemma import_member_progress path (m : tarfile.TarInfo) (st : state) :
  (tarfile.isfile m = true →
   tarfile.size m = Z.of_nat (length (tarfile.extractfile m))) →
  progress_value st ≤ progress_value (state_of (import_member path m st))
    ≤ progress_value st + (if tarfile.isfile m then tarfile.size m else 0) ∧
  (∀ st', import_member path m st = Done st' →
     progress_value st' = progress_value st + (if tarfile.isfile m then tarfile.size m else 0)).
Proof.
  intros Hsize. unfold import_member.
  destruct (tarfile.isfile m) eqn:Hf.
  2:{ cbn. split; [lia|]. intros st' [= <-]. lia. }
  rewrite (Hsize eq_refl), <- readlines_bytes. cbv zeta.
  set (st0 := print (ImportingMember (tarfile.name m)) st).
  set (logfile := path +:+ "/" +:+ tarfile.name m).
  set (mf := readlines (tarfile.extractfile m)).
  change (progress_value st) with (progress_value st0).
  destruct args_output.
  - unfold ship_bulk.
    destruct (generate_actions logfile mf (progress_value st0)) as [[acts p'] e] eqn:Hg.
    apply generate_actions_progress in Hg as [Hb He].
    destruct (bulk _ _ _) as [w [s fl|x pulled]].
    + destruct e as [e|].
      * cbn in *. split; [lia|done].
      * destruct (He eq_refl) as [-> _]. cbn in *. split; [lia|].
        intros st' [= <-]. done.
    + destruct (generate_actions logfile (take pulled mf) (progress_value st0))
        as [[acts1 p1] e1] eqn:Hg1.
      apply generate_actions_progress in Hg1 as [Hb1 _].
      pose proof (bytes_consumed_take pulled mf).
      cbn in *. split; [lia|done].
  - unfold ship_logstash.
    destruct (post_events_progress logfile mf (reset_counts st0)) as (_ & Hb & Hd).
    destruct (post_events logfile mf (reset_counts st0)) as [st1|e st1] eqn:Hp.
    + cbn [and_then]. cbn in Hb. destruct (Hd st1 eq_refl) as (Hv & _).
      destruct (print_summary_cases st1) as [[_ ->]|(c & _ & ->)]; cbn.
      * split; [done|done].
      * split; [done|]. intros st' [= <-]. done.
    + cbn in *. split; [done|done].
Qed.

Lemma sizes_nonneg (ms : list tarfile.TarInfo) :
  Forall (λ m, tarfile.isfile m = true →
               tarfile.size m = Z.of_nat (length (tarfile.extractfile m))) ms →
  0 ≤ foldr Z.add 0 (tarfile.size <$> filter (λ m, tarfile.isfile m = true) ms).
Proof.
  induction 1 as [|m ms Hm _ IH]; [done|].
  rewrite filter_cons. case_decide as Hf; [|done].
  cbn. rewrite (Hm Hf). lia.
Qed.

Lemma sizes_cons (m : tarfile.TarInfo) ms :
  foldr Z.add 0 (tarfile.size <$> filter (λ m, tarfile.isfile m = true) (m :: ms))
  = (if tarfile.isfile m then tarfile.size m else 0)
    + foldr Z.add 0 (tarfile.size <$> filter (λ m, tarfile.isfile m = true) ms).
Proof.
  rewrite filter_cons. destruct (tarfile.isfile m); case_decide; try done.
Qed.

Lemma import_members_progress path ms (st : state) :
  Forall (λ m, tarfile.isfile m = true →
               tarfile.size m = Z.of_nat (length (tarfile.extractfile m))) ms →
  progress_value st ≤ progress_value (state_of (import_members path ms st))
    ≤ progress_value st
      + foldr Z.add 0 (tarfile.size <$> filter (λ m, tarfile.isfile m = true) ms) ∧
  (∀ st', import_members path ms st = Done st' →
     progress_value st' = progress_value st
       + foldr Z.add 0 (tarfile.size <$> filter (λ m, tarfile.isfile m = true) ms)).
Proof.
  intros Hms. revert st. induction Hms as [|m ms Hm Hms IH]; intros st.
  - cbn. split; [lia|]. intros st' [= <-]. lia.
  - rewrite sizes_cons. cbn [import_members].
    pose proof (sizes_nonneg ms Hms) as Hnn.
    destruct (import_member_progress path m st Hm) as [Hb Hd].
    destruct (import_member path m st) as [st1|e st1] eqn:Hi; cbn [and_then].
    + cbn in Hb. specialize (Hd st1 eq_refl). destruct (IH st1) as [Hb1 Hd1].
      split; [lia|]. intros st' Hst'. rewrite (Hd1 st' Hst'). lia.
    + cbn in *. split; [lia|done].
Qed.

Lemma import_archives_progress paths (st : state) :
  sizes_consistent paths →
  progress_value st ≤ progress_value (state_of (import_archives paths st))
    ≤ progress_value st + total_size paths ∧
  (∀ st', import_archives paths st = Done st' →
     progress_value st' = progress_value st + total_size paths).
Proof.
  intros Hp. revert st. induction Hp as [|a paths Ha Hp IH]; intros st.
  - cbn. unfold total_size. cbn. split; [lia|]. intros st' [= <-]. lia.
  - rewrite total_size_cons. cbn [import_archives]. unfold import_archive.
    assert (0 ≤ total_size paths) as Hnn.
    { clear -Hp. induction Hp as [|a paths Ha _ IH]; [done|].
      rewrite total_size_cons. pose proof (sizes_nonneg _ Ha). unfold member_sizes. lia. }
    pose proof (sizes_nonneg _ Ha) as Hna.
    destruct (import_members_progress (path a) (getmembers a)
                (print (ImportingDataset (path a)) st) Ha) as [Hb Hd].
    unfold member_sizes.
    destruct (import_members _ _ _) as [st1|e st1] eqn:Hi; cbn [and_then].
    + cbn in Hb. specialize (Hd st1 eq_refl). cbn in Hd. destruct (IH st1) as [Hb1 Hd1].
      split; [lia|]. intros st' Hst'. rewrite (Hd1 st' Hst'). lia.
    + cbn in *. split; [lia|done].
Qed.

(** X8.  The progress value stays between 0 and the total computed by the
    size scan, however the run ends, when every header size is the length
    of the member's data. *)
Theorem progress_within_total paths w :
  sizes_consistent paths →
  0 ≤ progress_value (state_of (run paths w)) ≤ total_size paths.
Proof.
  intros Hp. unfold run.
  destruct (import_archives_progress paths (initial w) Hp) as [Hb _].
  destruct (import_archives paths (initial w)); cbn in *; lia.
Qed.

(** X9.  A run that reaches its end has read exactly the total computed
    by the size scan. *)
Theorem completed_run_progress_full paths w st :
  sizes_consistent paths →
  run paths w = Done st →
  progress_value st = total_size paths.
Proof.
  intros Hp. unfold run.
  destruct (import_archives_progress paths (initial w) Hp) as [_ Hd].
  destruct (import_archives paths (initial w)) as [st1|]; cbn; [|done].
  intros [= <-]. cbn. rewrite (Hd st1 eq_refl). cbn. lia.
Qed.

End RunFacts.

Lemma broken_then_good_consistent : sizes_consistent [broken_then_good].
Proof. repeat constructor. Qed.

Lemma good_archive_consistent : sizes_consistent [good_archive].
Proof. repeat constructor. Qed.

Lemma progress_within_total_witness :
  0 ≤ progress_value (state_of (sample_run Logstash [broken_then_good]))
    ≤ total_size [broken_then_good].
Proof.
  apply (@progress_within_total (sample Logstash) [broken_then_good] []).
  exact broken_then_good_consistent.
Defined.

Lemma completed_run_progress_full_witness :
  progress_value (state_of (sample_run Logstash [good_archive]))
  = total_size [good_archive].
Proof.
  apply (@completed_run_progress_full (sample Logstash) [good_archive] []).
  - exact good_archive_consistent.
  - vm_compute. reflexivity.
Defined.

Section Counters.

Context `{External}.

Lemma lines_cons (m : tarfile.TarInfo) ms :
  length (filter (λ m, tarfile.isfile m = true) (m :: ms)
          ≫= λ m, readlines (tarfile.extractfile m))
  = ((if tarfile.isfile m then length (readlines (tarfile.extractfile m)) else 0)
     + length (filter (λ m, tarfile.isfile m = true) ms
               ≫= λ m, readlines (tarfile.extractfile m)))%nat.
Proof.
  rewrite filter_cons. destruct (tarfile.isfile m); case_decide; try done.
  cbn. by rewrite length_app.
Qed.

(** One member sent to Logstash to the end: its summary is the last thing
    printed, and the two counts in it add up to the member's lines. *)
Lemma import_member_logstash path (m : tarfile.TarInfo) (st st' : state) :
  args_output = Logstash →
  import_member path m st = Done st' →
  (tarfile.isfile m = true →
   (∃ c, last (stdout st') = Some (Imported (success_count st') (fail_count st') c)) ∧
   success_count st' + fail_count st'
     = Z.of_nat (length (readlines (tarfile.extractfile m))) ∧
   0 ≤ success_count st' ∧ 0 ≤ fail_count st') ∧
  total_success st' + total_failed st'
    = total_success st + total_failed st
      + Z.of_nat (if tarfile.isfile m
                  then length (readlines (tarfile.extractfile m)) else 0) ∧
  total_success st ≤ total_success st' ∧ total_failed st ≤ total_failed st'.
Proof.
  intros Hout. unfold import_member. rewrite Hout.
  destruct (tarfile.isfile m).
  2:{ intros [= <-]. split; [done|]. lia. }
  cbv zeta. unfold ship_logstash.
  set (st0 := reset_counts (print (ImportingMember (tarfile.name m)) st)).
  destruct (post_events_progress (path +:+ "/" +:+ tarfile.name m)
              (readlines (tarfile.extractfile m)) st0) as (_ & _ & Hd).
  destruct (post_events _ _ st0) as [st1|e st1] eqn:Hp; cbn [and_then]; [|done].
  destruct (Hd st1 eq_refl) as (_ & Hc & Ht & Hs & Hf & Hm1 & Hm2).
  destruct (print_summary_cases st1) as [[_ ->]|(c & _ & ->)]; [done|].
  intros [= <-]. cbn in *. split; [|lia].
  intros _. split; [|lia]. exists c. by rewrite last_snoc.
Qed.

Lemma import_members_logstash path ms (st st' : state) :
  args_output = Logstash →
  import_members path ms st = Done st' →
  total_success st' + total_failed st'
    = total_success st + total_failed st
      + Z.of_nat (length (filter (λ m, tarfile.isfile m = true) ms
                          ≫= λ m, readlines (tarfile.extractfile m))) ∧
  total_success st ≤ total_success st' ∧ total_failed st ≤ total_failed st'.
Proof.
  intros Hout. revert st. induction ms as [|m ms IH]; intros st.
  - cbn. intros [= <-]. lia.
  - cbn [import_members]. rewrite lines_cons.
    destruct (import_member path m st) as [st1|] eqn:Hi; cbn [and_then]; [|done].
    intros Hd. apply IH in Hd.
    apply (import_member_logstash _ _ _ _ Hout) in Hi as (_ & Ht & Hm).
    destruct (tarfile.isfile m); lia.
Qed.

Lemma import_archives_logstash paths (st st' : state) :
  args_output = Logstash →
  import_archives paths st = Done st' →
  total_success st' + total_failed st'
    = total_success st + total_failed st + Z.of_nat (length (lines_of paths)) ∧
  total_success st ≤ total_success st' ∧ total_failed st ≤ total_failed st'.
Proof.
  intros Hout. revert st. induction paths as [|a paths IH]; intros st.
  - cbn. intros [= <-]. lia.
  - cbn [import_archives]. unfold import_archive.
    destruct (import_members _ _ _) as [st1|] eqn:Hi; cbn [and_then]; [|done].
    intros Hd. apply IH in Hd.
    apply (import_members_logstash _ _ _ _ Hout) in Hi. cbn in Hi.
    unfold lines_of in *. cbn. rewrite length_app. lia.
Qed.

(** X10.  A run to Logstash that reaches its end has counted every line of
    every file member once, as a success or as a failure, and the last
    thing it printed is the line with these two totals. *)
Theorem logstash_run_counts_every_line paths w st :
  args_output = Logstash →
  run paths w = Done st →
  total_success st + total_failed st = Z.of_nat (length (lines_of paths)) ∧
  0 ≤ total_success st ∧ 0 ≤ total_failed st ∧
  last (stdout st) = Some (ImportedTotal (total_success st) (total_failed st)).
Proof.
  intros Hout. unfold run.
  destruct (import_archives paths (initial w)) as [st1|] eqn:Hi; cbn [and_then]; [|done].
  intros [= <-]. apply (import_archives_logstash _ _ _ Hout) in Hi. cbn in *.
  rewrite last_snoc. repeat split; lia.
Qed.

(** X11.  A file member sent to Logstash to the end: the summary printed
    for it is the last message, and its success and failure counts are
    non-negative and add up to the number of lines of the member. *)
Theorem logstash_member_summary path (m : tarfile.TarInfo) (st st' : state) :
  args_output = Logstash →
  tarfile.isfile m = true →
  import_member path m st = Done st' →
  (∃ c, last (stdout st') = Some (Imported (success_count st') (fail_count st') c)) ∧
  success_count st' + fail_count st'
    = Z.of_nat (length (readlines (tarfile.extractfile m))) ∧
  0 ≤ success_count st' ∧ 0 ≤ fail_count st'.
Proof.
  intros Hout Hf Hd.
  by apply (import_member_logstash _ _ _ _ Hout) in Hd as [Hs _]; apply Hs.
Qed.

End Counters.

Lemma logstash_run_counts_every_line_witness :
  total_success (state_of (sample_run Logstash [good_archive]))
    + total_failed (state_of (sample_run Logstash [good_archive]))
    = Z.of_nat (length (lines_of [good_archive])) ∧
  0 ≤ total_success (state_of (sample_run Logstash [good_archive])) ∧
  0 ≤ total_failed (state_of (sample_run Logstash [good_archive])) ∧
  last (stdout (state_of (sample_run Logstash [good_archive])))
    = Some (ImportedTotal
              (total_success (state_of (sample_run Logstash [good_archive])))
              (total_failed (state_of (sample_run Logstash [good_archive])))).
Proof.
  apply (@logstash_run_counts_every_line (sample Logstash) [good_archive] []).
  - reflexivity.
  - vm_compute. reflexivity.
Defined.

Lemma logstash_member_summary_witness :
  (∃ c, last (stdout (state_of (sample_import Logstash "b.tar.gz" two_lines
                                  (sample_initial Logstash))))
        = Some (Imported
                  (success_count (state_of (sample_import Logstash "b.tar.gz" two_lines
                                              (sample_initial Logstash))))
                  (fail_count (state_of (sample_import Logstash "b.tar.gz" two_lines
                                           (sample_initial Logstash)))) c)) ∧
  success_count (state_of (sample_import Logstash "b.tar.gz" two_lines
                             (sample_initial Logstash)))
    + fail_count (state_of (sample_import Logstash "b.tar.gz" two_lines
                              (sample_initial Logstash)))
    = Z.of_nat (length (readlines (tarfile.extractfile two_lines))) ∧
  0 ≤ success_count (state_of (sample_import Logstash "b.tar.gz" two_lines
                                 (sample_initial Logstash))) ∧
  0 ≤ fail_count (state_of (sample_import Logstash "b.tar.gz" two_lines
                              (sample_initial Logstash))).
Proof.
  apply (@logstash_member_summary (sample Logstash) "b.tar.gz" two_lines
           (sample_initial Logstash)).
  - reflexivity.
  - reflexivity.
  - vm_compute. reflexivity.
Defined.


Section Generator.

Context `{External}.




(** A member that is not a file is passed over. *)
Lemma import_members_only_files path ms (st : state) :
  import_members path (filter (λ m, tarfile.isfile m = true) ms) st
  = import_members path ms st.
Proof.
  revert st. induction ms as [|m ms IH]; intros st; [done|].
  rewrite filter_cons. cbn [import_members].
  destruct (tarfile.isfile m) eqn:Hf; case_decide; try done.
  - cbn [import_members]. destruct (import_member path m st); cbn; [apply IH|done].
  - unfold import_member. rewrite Hf. cbn. apply IH.
Qed.

(** X13.  Members that are not regular files (directories, links) take no
    part: the run, the total size and the lines read are the same as for
    the archives with those members removed. *)
Theorem non_files_take_no_part paths w :
  run (only_files <$> paths) w = run paths w ∧
  total_size (only_files <$> paths) = total_size paths ∧
  lines_of (only_files <$> paths) = lines_of paths.
Proof.
  split; [|split].
  - unfold run. f_equal. generalize (initial w).
    induction paths as [|a paths IH]; intros st; [done|].
    cbn [fmap list_fmap import_archives]. unfold import_archive.
    cbn [only_files path getmembers]. rewrite import_members_only_files.
    destruct (import_members _ _ _); cbn [and_then]; [apply IH|done].
  - induction paths as [|a paths IH]; [done|].
    cbn [fmap list_fmap]. rewrite !total_size_cons. fold (fmap only_files paths).
    rewrite IH. f_equal. unfold member_sizes, only_files. cbn [getmembers].
    by rewrite list_filter_filter_l.
  - induction paths as [|a paths IH]; [done|].
    cbn [fmap list_fmap]. fold (fmap only_files paths). unfold lines_of in *. cbn.
    rewrite IH. f_equal. by rewrite list_filter_filter_l.
Qed.

(** X14.  An empty file member sent to Logstash assigns no colour: if none
    was assigned before, line 183 raises [NameError], and so does a run
    whose first member is such a file; otherwise the summary is printed
    with the colour the previous member left, for zero records. *)
Theorem logstash_empty_member path (m : tarfile.TarInfo) (st : state) :
  args_output = Logstash →
  tarfile.isfile m = true →
  tarfile.extractfile m = [] →
  (color st = None →
   import_member path m st
   = Raised (NameError "color")
       (reset_counts (print (ImportingMember (tarfile.name m)) st))) ∧
  (∀ c, color st = Some c →
   import_member path m st
   = Done (print (Imported 0 0 c)
             (reset_counts (print (ImportingMember (tarfile.name m)) st)))) ∧
  (∀ p ms paths w,
     ∃ st', run ({| path := p; getmembers := m :: ms |} :: paths) w
            = Raised (NameError "color") st').
Proof.
  intros Hout Hf Hdata.
  assert (Hm : ∀ p (st : state),
    import_member p m st
    = print_summary (reset_counts (print (ImportingMember (tarfile.name m)) st))).
  { intros p st0. unfold import_member. rewrite Hout, Hf, Hdata. done. }
  split; [|split].
  - intros Hc. rewrite Hm. unfold print_summary. cbn. by rewrite Hc.
  - intros c Hc. rewrite Hm. unfold print_summary. cbn. by rewrite Hc.
  - intros p ms paths w. unfold run. cbn [import_archives]. unfold import_archive.
    cbn [getmembers import_members]. rewrite Hm. cbn. eauto.
Qed.

End Generator.

Lemma logstash_empty_member_witness :
  (color (sample_initial Logstash) = None →
   sample_import Logstash "a.tar.gz" empty_member (sample_initial Logstash)
   = Raised (NameError "color")
       (reset_counts (print (ImportingMember (tarfile.name empty_member))
                        (sample_initial Logstash)))) ∧
  (∀ c, color (sample_initial Logstash) = Some c →
   sample_import Logstash "a.tar.gz" empty_member (sample_initial Logstash)
   = Done (print (Imported 0 0 c)
             (reset_counts (print (ImportingMember (tarfile.name empty_member))
                              (sample_initial Logstash))))) ∧
  (∀ p ms paths w,
     ∃ st', @run (sample Logstash)
              ({| path := p; getmembers := empty_member :: ms |} :: paths) w
            = Raised (NameError "color") st').
Proof.
  apply (@logstash_empty_member (sample Logstash) "a.tar.gz" empty_member
           (sample_initial Logstash)).
  - reflexivity.
  - reflexivity.
  - reflexivity.
Defined.

(** X15.  TLS verification for Logstash (lines 51 to 58): it is switched
    off exactly when [--insecure] was given, whatever [--cacerts] says; the
    CA bundle is what [requests] gets exactly when verification is on and
    the path is a non-empty string; otherwise verification is on with the
    default trust store. *)
Theorem logstash_verify_cases args_verify_certs args_cacerts :
  (logstash_verify args_verify_certs args_cacerts = inr false
     ↔ args_verify_certs = false) ∧
  (∀ c, logstash_verify args_verify_certs args_cacerts = inl c
     ↔ args_verify_certs = true ∧ c = args_cacerts ∧
       ∃ p, args_cacerts = Some p ∧ p ≠ "") ∧
  (logstash_verify args_verify_certs args_cacerts = inr true
     ↔ args_verify_certs = true ∧ (args_cacerts = None ∨ args_cacerts = Some "")).
Proof.
  unfold logstash_verify, truthy.
  destruct args_verify_certs, args_cacerts as [p|]; cbn;
    try (destruct (String.eqb_spec p "") as [->|Hne]; cbn);
    split_and!; try intros c; (split; intros Hx);
    repeat match goal with
           | H : _ ∧ _ |- _ => destruct H
           | H : ∃ _, _ |- _ => destruct H
           | H : _ ∨ _ |- _ => destruct H
           end;
    try discriminate; try congruence;
    repeat split; eauto; congruence.
Qed.

Section Outcomes.

Context `{External}.

(** X16.  A file member sent to Elasticsearch to the end: the bulk helper
    was called once, with the actions of all the member's lines; the
    counts it returned are the member's counts and are added to the
    totals; the summary is red exactly when the failure count is
    positive. *)
Theorem elasticsearch_member_summary path (m : tarfile.TarInfo) (st st' : state) :
  args_output = Elasticsearch →
  tarfile.isfile m = true →
  import_member path m st = Done st' →
  ∃ acts,
    generate_actions (path +:+ "/" +:+ tarfile.name m)
      (readlines (tarfile.extractfile m)) (progress_value st)
      = (acts, progress_value st', None) ∧
    length acts = length (readlines (tarfile.extractfile m)) ∧
    bulk (world st) acts None
      = (world st', Counts (success_count st') (fail_count st')) ∧
    total_success st' = total_success st + success_count st' ∧
    total_failed st' = total_failed st + fail_count st' ∧
    last (stdout st')
      = Some (Imported (success_count st') (fail_count st')
                (if fail_count st' >? 0 then "red" else "green")).
Proof.
  intros Hout Hf. unfold import_member. rewrite Hout, Hf. cbv zeta.
  unfold ship_bulk. cbn [progress_value print].
  destruct (generate_actions _ _ (progress_value st)) as [[acts p'] e] eqn:Hg.
  pose proof (generate_actions_progress _ _ _ _ _ _ Hg) as [_ Hlen].
  cbn [world progress_update print].
  destruct (bulk (world st) acts e) as [w [s fl|x pulled]] eqn:Hb; [|done].
  destruct e as [e|]; [done|].
  destruct (Hlen eq_refl) as [_ Hl].
  cbn. intros [= <-]. cbn. exists acts. rewrite last_snoc. by repeat split.
Qed.

(** X17.  The colour of a member's summary, to Logstash, is decided by the
    last record alone: green when the post of the last line returned 200,
    red otherwise, whatever happened to the lines before. *)
Theorem logstash_colour_is_last_record path (m : tarfile.TarInfo) f line
    (st st' : state) :
  args_output = Logstash →
  tarfile.isfile m = true →
  readlines (tarfile.extractfile m) = (f ++ [line])%list →
  import_member path m st = Done st' →
  ∃ st1 event w status_code,
    post_events (path +:+ "/" +:+ tarfile.name m) f
      (reset_counts (print (ImportingMember (tarfile.name m)) st)) = Done st1 ∧
    generate_action (path +:+ "/" +:+ tarfile.name m) line (progress_value st1)
      = Ok (event, progress_value st1 + len line) ∧
    requests_post (world st1) event = (w, Ok status_code) ∧
    last (stdout st')
      = Some (Imported (success_count st') (fail_count st')
                (if status_code =? 200 then "green" else "red")).
Proof.
  intros Hout Hf Hlines. unfold import_member. rewrite Hout, Hf, Hlines. cbv zeta.
  unfold ship_logstash. rewrite post_events_app.
  destruct (post_events _ f _) as [st1|] eqn:H1; cbn [and_then]; [|done].
  cbn [post_events].
  destruct (generate_action _ line (progress_value st1)) as [[event p1]|] eqn:Hg;
    cbn [and_then]; [|done].
  pose proof (generate_action_Ok_inv _ _ _ _ _ Hg) as [-> _].
  unfold post_event. cbn [world progress_update].
  destruct (requests_post (world st1) event) as [w [c|x]] eqn:Hr; [|done].
  cbn [and_then]. intros Hd. exists st1, event, w, c.
  split; [done|]. split; [done|]. split; [done|].
  revert Hd. destruct (c =? 200); cbn; intros [= <-]; cbn; by rewrite last_snoc.
Qed.

End Outcomes.

Lemma elasticsearch_member_summary_witness :
  ∃ acts,
    @generate_actions (sample Elasticsearch)
      ("b.tar.gz" +:+ "/" +:+ tarfile.name two_lines)
      (readlines (tarfile.extractfile two_lines))
      (progress_value (sample_initial Elasticsearch))
      = (acts,
         progress_value (state_of (sample_import Elasticsearch "b.tar.gz" two_lines
                                     (sample_initial Elasticsearch))),
         None) ∧
    length acts = length (readlines (tarfile.extractfile two_lines)) ∧
    sample_bulk (world (sample_initial Elasticsearch)) acts None
      = (world (state_of (sample_import Elasticsearch "b.tar.gz" two_lines
                            (sample_initial Elasticsearch))),
         Counts
           (success_count (state_of (sample_import Elasticsearch "b.tar.gz" two_lines
                                       (sample_initial Elasticsearch))))
           (fail_count (state_of (sample_import Elasticsearch "b.tar.gz" two_lines
                                    (sample_initial Elasticsearch))))) ∧
    total_success (state_of (sample_import Elasticsearch "b.tar.gz" two_lines
                               (sample_initial Elasticsearch)))
      = total_success (sample_initial Elasticsearch)
        + success_count (state_of (sample_import Elasticsearch "b.tar.gz" two_lines
                                     (sample_initial Elasticsearch))) ∧
    total_failed (state_of (sample_import Elasticsearch "b.tar.gz" two_lines
                              (sample_initial Elasticsearch)))
      = total_failed (sample_initial Elasticsearch)
        + fail_count (state_of (sample_import Elasticsearch "b.tar.gz" two_lines
                                  (sample_initial Elasticsearch))) ∧
    last (stdout (state_of (sample_import Elasticsearch "b.tar.gz" two_lines
                              (sample_initial Elasticsearch))))
      = Some (Imported
                (success_count (state_of (sample_import Elasticsearch "b.tar.gz" two_lines
                                            (sample_initial Elasticsearch))))
                (fail_count (state_of (sample_import Elasticsearch "b.tar.gz" two_lines
                                         (sample_initial Elasticsearch))))
                (if fail_count (state_of (sample_import Elasticsearch "b.tar.gz" two_lines
                                            (sample_initial Elasticsearch))) >? 0
                 then "red" else "green")).
Proof.
  apply (@elasticsearch_member_summary (sample Elasticsearch) "b.tar.gz" two_lines
           (sample_initial Elasticsearch)).
  - reflexivity.
  - reflexivity.
  - vm_compute. reflexivity.
Defined.


Lemma logstash_colour_is_last_record_witness :
  ∃ st1 event w status_code,
    @post_events (sample Logstash) ("b.tar.gz" +:+ "/" +:+ tarfile.name two_lines)
      [good_line]
      (reset_counts (print (ImportingMember (tarfile.name two_lines))
                       (sample_initial Logstash))) = Done st1 ∧
    @generate_action (sample Logstash) ("b.tar.gz" +:+ "/" +:+ tarfile.name two_lines)
      good_line (progress_value st1)
      = Ok (event, progress_value st1 + len good_line) ∧
    sample_post (world st1) event = (w, Ok status_code) ∧
    last (stdout (state_of (sample_import Logstash "b.tar.gz" two_lines
                              (sample_initial Logstash))))
      = Some (Imported
                (success_count (state_of (sample_import Logstash "b.tar.gz" two_lines
                                            (sample_initial Logstash))))
                (fail_count (state_of (sample_import Logstash "b.tar.gz" two_lines
                                         (sample_initial Logstash))))
                (if status_code =? 200 then "green" else "red")).
Proof.
  apply (@logstash_colour_is_last_record (sample Logstash) "b.tar.gz" two_lines
           [good_line] good_line (sample_initial Logstash)).
  - reflexivity.
  - reflexivity.
  - vm_compute. reflexivity.
  - vm_compute. reflexivity.
Defined.
